(** * SuperKarmaBot: the karma ledger, the cooldown gate and the levelling rule

    A shallow embedding of [bot.py] and [config.py].  The two SQLite tables
    the karma commands work on are lists of rows in rowid order, the
    in-memory cooldown dictionary is a finite map, and every handler is a
    function from the bot's state (and the clock readings it takes) to the
    new state and the reply it sends. *)

From stdpp Require Import gmap strings list sorting pretty.

Open Scope Z_scope.

(** ** config.py *)

Module Config.
Definition COOLDOWN_SECONDS : Z := 60.
Definition LEVEL_INTERVAL : Z := 50.
End Config.

(** ** class KarmaEmojis

    The string literals are the bytes of the source file. *)

Module KarmaEmojis.
Definition LEVELS : list string :=
  ["‚≠ê"; "üåü"; "‚ú®"; "üí´"; "‚òÑÔ∏è"]%string.
Definition REACTIONS : list string :=
  ["üëç"; "‚ù§Ô∏è"; "üéâ"; "üî•"; "üëè"]%string.
End KarmaEmojis.

(** ** Python values the handlers rely on *)

(** [datetime.now()]: a naive local time, counted in microseconds. *)
Definition datetime := Z.

(** [timedelta]: a signed number of microseconds. *)
Definition timedelta := Z.

Definition timedelta_of_seconds (s : Z) : timedelta := s * 1000000.

(** [timedelta.seconds]: the seconds field of the normalised
    (days, seconds, microseconds) triple, always in [0, 86400). *)
Definition td_seconds (d : timedelta) : Z := (d mod 86400000000) / 1000000.

(** SQLite's [datetime('now')] and [CURRENT_TIMESTAMP]: UTC text of the form
    YYYY-MM-DD HH:MM:SS.  Texts of that form compare as the instants they
    denote, so a stamp is the number of seconds it stands for. *)
Definition sql_time := Z.

(** [seq[i]] on a Python list: a negative index counts from the end, and an
    index outside [-len, len) raises IndexError ([None]). *)
Definition py_index {A} (l : list A) (i : Z) : option A :=
  if 0 <=? i then l !! Z.to_nat i
  else if - Z.of_nat (length l) <=? i then l !! Z.to_nat (i + Z.of_nat (length l))
  else None.

(** [x or default] on an optional string: [None] and the empty string are
    both falsy. *)
Definition str_or (x : option string) (default : string) : string :=
  match x with
  | Some s => if decide (s = ""%string) then default else s
  | None => default
  end.

(** ** The database and the bot's state *)

(** A row of table [karma]; primary key (user_id, guild_id).  SQLite
    integers are taken as mathematical integers: the totals the commands
    can build stay far inside the 64-bit range. *)
Record karma_row := KarmaRow {
  kr_user_id : Z;
  kr_guild_id : Z;
  kr_karma : Z;
  kr_last_updated : option sql_time
}.

(** A row of table [karma_history]. *)
Record history_row := HistoryRow {
  h_id : Z;
  h_user_id : Z;
  h_guild_id : Z;
  h_change : Z;
  h_reason : option string;
  h_timestamp : sql_time
}.

(** [bot.db_pool] (tables in rowid order, with the AUTOINCREMENT counter of
    [karma_history]) and [bot.cooldowns]. *)
Record bot_state := BotState {
  karma : list karma_row;
  karma_history : list history_row;
  history_seq : Z;
  cooldowns : gmap Z datetime
}.

Definition row_is (user_id guild_id : Z) (r : karma_row) : bool :=
  bool_decide (kr_user_id r = user_id) && bool_decide (kr_guild_id r = guild_id).

(** SELECT ... FROM karma WHERE user_id = ? AND guild_id = ?, fetchone. *)
Fixpoint select_karma (rows : list karma_row) (user_id guild_id : Z)
  : option karma_row :=
  match rows with
  | [] => None
  | r :: rows' =>
      if row_is user_id guild_id r then Some r
      else select_karma rows' user_id guild_id
  end.

(** INSERT INTO karma ... ON CONFLICT(user_id, guild_id) DO UPDATE SET
    karma = karma + excluded.karma, last_updated = excluded.last_updated
    RETURNING karma: the conflicting row is rewritten in place, a new row
    goes to the end of the table; the second component is the returned
    column. *)
Fixpoint upsert_karma (rows : list karma_row) (user_id guild_id delta : Z)
    (now : sql_time) : list karma_row * Z :=
  match rows with
  | [] => ([KarmaRow user_id guild_id delta (Some now)], delta)
  | r :: rows' =>
      if row_is user_id guild_id r
      then (KarmaRow user_id guild_id (kr_karma r + delta) (Some now) :: rows',
            kr_karma r + delta)
      else let '(rows'', k) := upsert_karma rows' user_id guild_id delta now in
           (r :: rows'', k)
  end.

(** ** class KarmaManager *)

Record karma_data := KarmaData {
  kd_karma : Z;
  kd_last_updated : option sql_time
}.

Record update_result := UpdateResult {
  new_karma : Z;
  level : Z
}.

Definition get_karma (st : bot_state) (user_id guild_id : Z) : karma_data :=
  match select_karma (karma st) user_id guild_id with
  | Some row => KarmaData (kr_karma row) (kr_last_updated row)
  | None => KarmaData 0 None
  end.

Definition calculate_level (karma : Z) : Z :=
  Z.min (karma / Config.LEVEL_INTERVAL)
        (Z.of_nat (length KarmaEmojis.LEVELS) - 1).

(** The upsert, then the INSERT INTO karma_history, then the commit.  The
    two statements run back to back: one reading [now] of the database
    clock stands for [datetime('now')] and for the log's CURRENT_TIMESTAMP. *)
Definition update_karma (st : bot_state) (user_id guild_id delta : Z)
    (reason : option string) (now : sql_time) : bot_state * update_result :=
  let '(rows, result) := upsert_karma (karma st) user_id guild_id delta now in
  let id := history_seq st + 1 in
  (BotState rows
            (karma_history st ++ [HistoryRow id user_id guild_id delta reason now])
            id
            (cooldowns st),
   UpdateResult result (calculate_level result)).

(** SELECT user_id, karma FROM karma WHERE guild_id = ?
    ORDER BY karma DESC LIMIT ?

    The only sort key is [karma]; SQLite leaves the order of rows with equal
    keys open.  [order_by_karma_desc] is the answer of a stable sort over
    the table's rowid order, and [ordered_by_karma_desc] describes every
    answer the clause allows. *)
Record board_entry := BoardEntry {
  be_user_id : Z;
  be_karma : Z
}.

Definition karma_desc (a b : karma_row) : Prop := kr_karma b <= kr_karma a.

Fixpoint insert_desc (r : karma_row) (sorted : list karma_row) : list karma_row :=
  match sorted with
  | [] => [r]
  | x :: sorted' =>
      if kr_karma x <=? kr_karma r then r :: x :: sorted'
      else x :: insert_desc r sorted'
  end.

Definition order_by_karma_desc (rows : list karma_row) : list karma_row :=
  foldr insert_desc [] rows.

Definition ordered_by_karma_desc (rows answer : list karma_row) : Prop :=
  answer ≡ₚ rows ∧ StronglySorted karma_desc answer.

(** LIMIT n: a negative n means no limit. *)
Definition sql_limit {A} (n : Z) (rows : list A) : list A :=
  if n <? 0 then rows else take (Z.to_nat n) rows.

Definition to_entry (r : karma_row) : board_entry :=
  BoardEntry (kr_user_id r) (kr_karma r).

Definition get_leaderboard (st : bot_state) (guild_id limit : Z)
  : list board_entry :=
  to_entry <$>
    sql_limit limit (order_by_karma_desc (filter (λ r, kr_guild_id r = guild_id) (karma st))).

(** Every list the leaderboard query may return on [st]. *)
Definition leaderboard_answer (st : bot_state) (guild_id limit : Z)
    (records : list board_entry) : Prop :=
  ∃ answer,
    ordered_by_karma_desc (filter (λ r, kr_guild_id r = guild_id) (karma st)) answer
    ∧ records = to_entry <$> sql_limit limit answer.

(** ** SuperKarmaBot.cleanup_task

    DELETE FROM karma_history WHERE timestamp < datetime('now', '-30 days') *)
Definition retention : Z := 30 * 86400.

Definition expired (now : sql_time) (e : history_row) : Prop :=
  h_timestamp e < now - retention.

#[global] Instance expired_dec now e : Decision (expired now e).
Proof. unfold expired. apply _. Defined.

Definition cleanup_task (st : bot_state) (now : sql_time) : bot_state :=
  BotState (karma st)
           (filter (λ e, ¬ expired now e) (karma_history st))
           (history_seq st)
           (cooldowns st).

(** ** check_cooldown *)

Definition check_cooldown (st : bot_state) (user_id : Z) (now : datetime)
  : option timedelta :=
  match cooldowns st !! user_id with
  | None => None
  | Some last_action =>
      let elapsed := now - last_action in
      let cooldown := timedelta_of_seconds Config.COOLDOWN_SECONDS in
      if elapsed <? cooldown then Some (cooldown - elapsed) else None
  end.

(** Truth value of an [Optional[timedelta]]: [None] and the zero duration
    are falsy. *)
Definition td_truthy (r : option timedelta) : option timedelta :=
  match r with
  | Some d => if d =? 0 then None else Some d
  | None => None
  end.

(** [bot.cooldowns[user_id] = datetime.now()] *)
Definition set_cooldown (st : bot_state) (user_id : Z) (now : datetime)
  : bot_state :=
  BotState (karma st) (karma_history st) (history_seq st)
           (<[user_id := now]> (cooldowns st)).

(** ** /karma give, /karma remove

    What a command handler ends with: one of the two refusals (the cooldown
    message prints [remaining.seconds]), the embed with the new total, or
    the IndexError of [KarmaEmojis.LEVELS[level]], raised after the update
    was committed and the cooldown recorded. *)
Inductive reply :=
  | SelfTargetError
  | CooldownActiveError (seconds : Z)
  | KarmaGiven (amount : Z) (user : Z) (new_total : Z) (level_emoji : string)
               (reason : option string)
  | KarmaRemoved (amount : Z) (user : Z) (new_total : Z) (level_emoji : string)
                 (reason : option string)
  | RaisedIndexError.

(** [if reason: embed.add_field(name="Reason", ...)] *)
Definition reason_field (reason : option string) : option string :=
  match reason with
  | Some s => if decide (s = ""%string) then None else Some s
  | None => None
  end.

(** [now_gate], [now_db] and [now_rec] are the clock readings taken by
    [check_cooldown], by the database and by the cooldown assignment. *)
Definition karma_give (st : bot_state) (interaction_user user guild_id amount : Z)
    (reason : option string) (now_gate : datetime) (now_db : sql_time)
    (now_rec : datetime) : bot_state * reply :=
  if bool_decide (user = interaction_user) then (st, SelfTargetError)
  else
    match td_truthy (check_cooldown st interaction_user now_gate) with
    | Some remaining => (st, CooldownActiveError (td_seconds remaining))
    | None =>
        let '(st1, result) := update_karma st user guild_id amount reason now_db in
        let st2 := set_cooldown st1 interaction_user now_rec in
        match py_index KarmaEmojis.LEVELS (level result) with
        | Some level_emoji =>
            (st2, KarmaGiven amount user (new_karma result) level_emoji
                             (reason_field reason))
        | None => (st2, RaisedIndexError)
        end
    end.

Definition karma_remove (st : bot_state) (interaction_user user guild_id amount : Z)
    (reason : option string) (now_gate : datetime) (now_db : sql_time)
    (now_rec : datetime) : bot_state * reply :=
  if bool_decide (user = interaction_user) then (st, SelfTargetError)
  else
    match td_truthy (check_cooldown st interaction_user now_gate) with
    | Some remaining => (st, CooldownActiveError (td_seconds remaining))
    | None =>
        let '(st1, result) := update_karma st user guild_id (- amount) reason now_db in
        let st2 := set_cooldown st1 interaction_user now_rec in
        match py_index KarmaEmojis.LEVELS (level result) with
        | Some level_emoji =>
            (st2, KarmaRemoved amount user (new_karma result) level_emoji
                             (reason_field reason))
        | None => (st2, RaisedIndexError)
        end
    end.

(** ** /karma check, up to the emoji lookup

    [target = user or interaction.user], then [get_karma], [calculate_level]
    and [KarmaEmojis.LEVELS[level]]; [None] is the IndexError. *)
Definition karma_check_emoji (st : bot_state) (interaction_user : Z)
    (user : option Z) (guild_id : Z) : option string :=
  let target := default interaction_user user in
  let karma_data := get_karma st target guild_id in
  let level := calculate_level (kd_karma karma_data) in
  py_index KarmaEmojis.LEVELS level.

(** ** /karmaadmin set *)

Record admin_embed := AdminEmbed {
  ae_user : Z;
  ae_amount : Z;
  ae_change : Z;
  ae_reason : option string
}.

Definition admin_set (st : bot_state) (user guild_id amount : Z)
    (reason : option string) (now_db : sql_time) : bot_state * admin_embed :=
  let current := get_karma st user guild_id in
  let delta := amount - kd_karma current in
  let '(st1, _) :=
    update_karma st user guild_id delta
                 (Some (str_or reason "Admin adjustment")) now_db in
  (st1, AdminEmbed user amount delta (reason_field reason)).

(** ** on_raw_reaction_add

    [author_id] is [message.author.id] of the message the payload points
    to, as fetched from the channel. *)
Record reaction_payload := ReactionPayload {
  p_emoji : string;
  p_user_id : Z;
  p_guild_id : Z;
  p_author_id : Z
}.

(** What the handler sends to the author, if anything. *)
Inductive reaction_result :=
  | NoMessage
  | LevelUpMessage (level_emoji : string) (new_level : Z)
  | ReactionIndexError.

Definition on_raw_reaction_add (st : bot_state) (payload : reaction_payload)
    (now_db : sql_time) : bot_state * reaction_result :=
  if bool_decide (p_emoji payload ∈ KarmaEmojis.REACTIONS) then
    if bool_decide (p_user_id payload = p_author_id payload) then (st, NoMessage)
    else
      let '(st1, result) :=
        update_karma st (p_author_id payload) (p_guild_id payload) 1
          (Some ("Received " +:+ p_emoji payload +:+ " reaction")) now_db in
      let new_level := calculate_level (new_karma result) in
      let old_level := if 1 <? new_karma result then new_level - 1 else 0 in
      if old_level <? new_level then
        match py_index KarmaEmojis.LEVELS new_level with
        | Some level_emoji => (st1, LevelUpMessage level_emoji new_level)
        | None => (st1, ReactionIndexError)
        end
      else (st1, NoMessage)
  else (st, NoMessage).

(** ** Runs of [update_karma] *)

Record delta_call := DeltaCall {
  dc_user_id : Z;
  dc_guild_id : Z;
  dc_delta : Z;
  dc_reason : option string;
  dc_now : sql_time
}.

Definition apply_call (st : bot_state) (c : delta_call) : bot_state :=
  fst (update_karma st (dc_user_id c) (dc_guild_id c) (dc_delta c)
                    (dc_reason c) (dc_now c)).

Definition apply_calls (st : bot_state) (calls : list delta_call) : bot_state :=
  foldl apply_call st calls.

Definition call_is (user_id guild_id : Z) (c : delta_call) : bool :=
  bool_decide (dc_user_id c = user_id) && bool_decide (dc_guild_id c = guild_id).

(** The sum of the deltas of the calls made for (user_id, guild_id). *)
Fixpoint deltas_for (user_id guild_id : Z) (calls : list delta_call) : Z :=
  match calls with
  | [] => 0
  | c :: calls' =>
      (if call_is user_id guild_id c then dc_delta c else 0)
      + deltas_for user_id guild_id calls'
  end.

(** The total that an upsert of [delta] leaves in the row of (u, g). *)
Definition bumped (rows : list karma_row) (u g delta : Z) : Z :=
  match select_karma rows u g with
  | Some r => kr_karma r + delta
  | None => delta
  end.

(** The reason logged for a reaction: f"Received {payload.emoji} reaction". *)
Definition reaction_reason (payload : reaction_payload) : option string :=
  Some ("Received " +:+ p_emoji payload +:+ " reaction").

(** ** Sample states *)

(** A bot that has just started on a new database. *)
Definition empty_state : bot_state := BotState [] [] 0 ∅.

(** The state after /karmaadmin set has put user 1 of guild 1 at [total]. *)
Definition state_with_total (total : Z) : bot_state :=
  (admin_set empty_state 1 1 total None 0).1.

(** Two members of guild 1 who were each given 5 points, user 2 first. *)
Definition tied_state : bot_state :=
  apply_calls empty_state [DeltaCall 2 1 5 None 0; DeltaCall 1 1 5 None 0].

(** Member 2 reacts with the first recognised emoji to a message that
    member 1 wrote in guild 1; member 1 reacts to a message of their own. *)
Definition reaction_to_other : reaction_payload :=
  ReactionPayload "üëç" 2 1 1.

Definition reaction_to_self : reaction_payload :=
  ReactionPayload "üëç" 1 1 1.

(** The order the leaderboard is said to have: more points first, and among
    equal points the smaller user id first. *)
Definition points_then_user_id (a b : board_entry) : Prop :=
  be_karma b < be_karma a
  ∨ (be_karma a = be_karma b ∧ be_user_id a < be_user_id b).

Definition points_desc (a b : board_entry) : Prop := be_karma b <= be_karma a.

(** ** Errors a handler can end in *)

Inductive py_error := IndexError | TypeError.

(** ** KarmaManager.get_history

    SELECT change, reason, timestamp FROM karma_history
    WHERE user_id = ? AND guild_id = ? ORDER BY timestamp DESC LIMIT ?
    and then [dict(row)] on every row. *)
Record history_entry := HistoryEntry {
  he_change : Z;
  he_reason : option string;
  he_timestamp : sql_time
}.

Fixpoint insert_recent (e : history_row) (sorted : list history_row)
  : list history_row :=
  match sorted with
  | [] => [e]
  | x :: sorted' =>
      if h_timestamp x <=? h_timestamp e then e :: x :: sorted'
      else x :: insert_recent e sorted'
  end.

Definition order_by_timestamp_desc (rows : list history_row) : list history_row :=
  foldr insert_recent [] rows.

(** [dict(row)]: the connection is opened without a row factory, so a row is
    the plain tuple (change, reason, timestamp).  [dict] takes its argument
    as a sequence of key/value pairs and raises TypeError at the first
    element that is not a sequence, which is the integer [change]. *)
Definition dict_of_row (row : history_row) : py_error + history_entry :=
  inl TypeError.

(** [[dict(row) for row in rows]]: the first failing row ends the loop. *)
Fixpoint dict_rows (rows : list history_row) : py_error + list history_entry :=
  match rows with
  | [] => inr []
  | row :: rows' =>
      match dict_of_row row with
      | inl err => inl err
      | inr d =>
          match dict_rows rows' with
          | inl err => inl err
          | inr ds => inr (d :: ds)
          end
      end
  end.

Definition events_of (user_id guild_id : Z) (rows : list history_row)
  : list history_row :=
  filter (λ e, h_user_id e = user_id ∧ h_guild_id e = guild_id) rows.

Definition get_history (st : bot_state) (user_id guild_id limit : Z)
  : py_error + list history_entry :=
  dict_rows
    (sql_limit limit
       (order_by_timestamp_desc (events_of user_id guild_id (karma_history st)))).

(** ** /karma check *)

(** One line of the "Recent Changes" field:
    f"{'+' if change > 0 else ''}{change} - {reason or 'No reason'}" *)
Definition change_line (e : history_entry) : string :=
  (if 0 <? he_change e then "+" else "") +:+ pretty (he_change e) +:+ " - "
    +:+ str_or (he_reason e) "No reason".

Definition newline : string := String (Ascii.ascii_of_N 10) "".

(** The embed of /karma check, or the exception the handler ends in. *)
Inductive check_reply :=
  | CheckEmbed (level_emoji : string) (target total level : Z)
               (recent_changes : option string)
  | CheckRaised (err : py_error).

Definition karma_check (st : bot_state) (interaction_user : Z)
    (user : option Z) (guild_id : Z) : check_reply :=
  let target := default interaction_user user in
  let karma_data := get_karma st target guild_id in
  let level := calculate_level (kd_karma karma_data) in
  match py_index KarmaEmojis.LEVELS level with
  | None => CheckRaised IndexError
  | Some level_emoji =>
      match get_history st target guild_id 5 with
      | inl err => CheckRaised err
      | inr history =>
          CheckEmbed level_emoji target (kd_karma karma_data) level
            (match history with
             | [] => None
             | _ => Some (String.concat newline (change_line <$> history))
             end)
      end
  end.

(** ** /karma leaderboard *)

Record board_line := BoardLine {
  bl_idx : Z;
  bl_user_id : Z;
  bl_karma : Z;
  bl_level_emoji : string
}.

Inductive leaderboard_reply :=
  | NoKarmaRecords
  | LeaderboardEmbed (lines : list board_line) (footer_limit : Z)
  | LeaderboardRaised (err : py_error).

(** The loop over [enumerate(records, 1)]; the member's display name is
    looked up outside, the line keeps the user id. *)
Fixpoint leaderboard_lines (idx : Z) (records : list board_entry)
  : py_error + list board_line :=
  match records with
  | [] => inr []
  | record :: records' =>
      let level := calculate_level (be_karma record) in
      match py_index KarmaEmojis.LEVELS level with
      | None => inl IndexError
      | Some level_emoji =>
          match leaderboard_lines (idx + 1) records' with
          | inl err => inl err
          | inr lines =>
              inr (BoardLine idx (be_user_id record) (be_karma record) level_emoji
                     :: lines)
          end
      end
  end.

Definition karma_leaderboard (st : bot_state) (guild_id limit : Z)
  : leaderboard_reply :=
  let records := get_leaderboard st guild_id limit in
  match records with
  | [] => NoKarmaRecords
  | _ =>
      match leaderboard_lines 1 records with
      | inl err => LeaderboardRaised err
      | inr lines => LeaderboardEmbed lines limit
      end
  end.

(** ** Kudo boards

    Table [kudo_boards]: [channel_id] is the INTEGER PRIMARY KEY, so the
    table is a finite map from channel ids. *)
Record kudo_board := KudoBoard {
  kb_guild_id : Z;
  kb_min_karma : Z
}.

(** INSERT OR REPLACE INTO kudo_boards (channel_id, guild_id, min_karma) *)
Definition create_kudo_board (boards : gmap Z kudo_board)
    (channel_id guild_id min_karma : Z) : gmap Z kudo_board :=
  <[channel_id := KudoBoard guild_id min_karma]> boards.

(** ** on_message

    [m_dm_open] tells whether the private notice can be delivered; a
    refused delivery (discord.Forbidden) is swallowed. *)
Record message := Message {
  m_author_bot : bool;
  m_channel_id : Z;
  m_content : string;
  m_dm_open : bool
}.

Inductive message_outcome :=
  | Ignored
  | Deleted (notified : bool)
  | LeftOnBoard
  | ProcessCommands.

(** [str.startswith] with a tuple of prefixes. *)
Definition startswith_any (s : string) (prefixes : list string) : bool :=
  existsb (λ p, String.prefix p s) prefixes.

Definition rep_prefixes : list string := ["+rep"; "!rep"; "/rep"]%string.

Definition on_message (boards : gmap Z kudo_board) (msg : message)
  : message_outcome :=
  if m_author_bot msg then Ignored
  else
    match kb_min_karma <$> boards !! m_channel_id msg with
    | Some board =>
        if negb (startswith_any (m_content msg) rep_prefixes)
        then Deleted (m_dm_open msg)
        else LeftOnBoard
    | None => ProcessCommands
    end.

(** ** Runs of the handlers that write to the state *)

Inductive event :=
  | Give (interaction_user user guild_id amount : Z) (reason : option string)
         (now_gate : datetime) (now_db : sql_time) (now_rec : datetime)
  | Remove (interaction_user user guild_id amount : Z) (reason : option string)
           (now_gate : datetime) (now_db : sql_time) (now_rec : datetime)
  | AdminSet (user guild_id amount : Z) (reason : option string)
             (now_db : sql_time)
  | Reaction (payload : reaction_payload) (now_db : sql_time)
  | Cleanup (now_db : sql_time).

Definition handle (st : bot_state) (ev : event) : bot_state :=
  match ev with
  | Give actor user g amount reason now_gate now_db now_rec =>
      (karma_give st actor user g amount reason now_gate now_db now_rec).1
  | Remove actor user g amount reason now_gate now_db now_rec =>
      (karma_remove st actor user g amount reason now_gate now_db now_rec).1
  | AdminSet user g amount reason now_db =>
      (admin_set st user g amount reason now_db).1
  | Reaction payload now_db => (on_raw_reaction_add st payload now_db).1
  | Cleanup now_db => cleanup_task st now_db
  end.

Definition run (st : bot_state) (evs : list event) : bot_state :=
  foldl handle st evs.

Definition is_cleanup (ev : event) : Prop :=
  match ev with Cleanup _ => True | _ => False end.

(** ** Well-formedness of the tables *)

Definition row_key (r : karma_row) : Z * Z := (kr_user_id r, kr_guild_id r).

(** The primary key of [karma]: one row per (user_id, guild_id). *)
Definition pk_unique (rows : list karma_row) : Prop := NoDup (row_key <$> rows).


(** The sum of the changes logged for (user_id, guild_id). *)
Definition log_sum (user_id guild_id : Z) (rows : list history_row) : Z :=
  foldr Z.add 0 (h_change <$> events_of user_id guild_id rows).

Definition ledger_matches_log (st : bot_state) : Prop :=
  ∀ u g, kd_karma (get_karma st u g) = log_sum u g (karma_history st).

(** [st] with another cooldown map. *)
Definition with_cooldowns (st : bot_state) (cd : gmap Z datetime) : bot_state :=
  BotState (karma st) (karma_history st) (history_seq st) cd.

(** A reaction event with a recognised emoji, put by someone else on a
    message that [author] wrote in guild [g]. *)
Definition reaction_for (author g : Z) (ev : event) : Prop :=
  match ev with
  | Reaction payload _ =>
      p_emoji payload ∈ KarmaEmojis.REACTIONS
      ∧ p_user_id payload ≠ author
      ∧ p_author_id payload = author
      ∧ p_guild_id payload = g
  | _ => False
  end.

(** The three ways a message may start to stay on a kudo board. *)
Definition starts_with_rep (content : string) : Prop :=
  ∃ p rest, p ∈ rep_prefixes ∧ content = (p +:+ rest)%string.

(** A short life of a new bot: member 1 gives 5 to member 2, member 2 reacts to
    a message of member 1, member 2 takes 3 from member 1,
    an admin sets member 3 to -300; then the same followed by a cleanup. *)
Definition sample_changes : list event :=
  [Give 1 2 1 5 (Some "helped"%string) 0 0 0;
   Reaction reaction_to_other 10;
   Remove 2 1 1 3 None 5000000 5 5000000;
   AdminSet 3 1 (-300) None 20].

Definition sample_run : list event := sample_changes ++ [Cleanup 3000000].

(** * Properties *)

(** ** The ledger *)

Section ledger.
Implicit Types (rows : list karma_row) (st : bot_state).

Lemma row_is_spec u g r :
  row_is u g r = true ↔ kr_user_id r = u ∧ kr_guild_id r = g.
Proof.
  unfold row_is. rewrite andb_true_iff, !bool_decide_eq_true. tauto.
Qed.

Lemma row_is_other u g u' g' r :
  (u', g') ≠ (u, g) → row_is u g r = true → row_is u' g' r = false.
Proof.
  intros Hne [Hu Hg]%row_is_spec. apply not_true_iff_false.
  intros [Hu' Hg']%row_is_spec. apply Hne. congruence.
Qed.

Lemma upsert_select_same rows u g delta now :
  select_karma (upsert_karma rows u g delta now).1 u g
  = Some (KarmaRow u g (bumped rows u g delta) (Some now)).
Proof.
  unfold bumped. induction rows as [|r rows IH]; simpl.
  - assert (row_is u g (KarmaRow u g delta (Some now)) = true) as ->
      by (apply row_is_spec; done).
    done.
  - destruct (row_is u g r) eqn:Hr; simpl.
    + assert (row_is u g (KarmaRow u g (kr_karma r + delta) (Some now)) = true)
        as -> by (apply row_is_spec; done).
      done.
    + destruct (upsert_karma rows u g delta now) as [rows' k]; simpl in *.
      by rewrite Hr.
Qed.

Lemma upsert_returning rows u g delta now :
  (upsert_karma rows u g delta now).2 = bumped rows u g delta.
Proof.
  unfold bumped. induction rows as [|r rows IH]; simpl; [done|].
  destruct (row_is u g r) eqn:Hr; simpl; [done|].
  by destruct (upsert_karma rows u g delta now) as [rows' k].
Qed.

Lemma upsert_select_other rows u g delta now u' g' :
  (u', g') ≠ (u, g) →
  select_karma (upsert_karma rows u g delta now).1 u' g'
  = select_karma rows u' g'.
Proof.
  intros Hne. induction rows as [|r rows IH]; simpl.
  - assert (row_is u' g' (KarmaRow u g delta (Some now)) = false) as ->; [|done].
    apply (row_is_other u g); [done|]. by apply row_is_spec.
  - destruct (row_is u g r) eqn:Hr; simpl.
    + rewrite (row_is_other u g u' g' r Hne Hr).
      assert (row_is u' g' (KarmaRow u g (kr_karma r + delta) (Some now)) = false)
        as ->; [|done].
      apply (row_is_other u g); [done|]. by apply row_is_spec.
    + destruct (upsert_karma rows u g delta now) as [rows' k]; simpl in *.
      by rewrite IH.
Qed.

Lemma update_karma_fst st u g delta reason now :
  (update_karma st u g delta reason now).1
  = BotState (upsert_karma (karma st) u g delta now).1
             (karma_history st
                ++ [HistoryRow (history_seq st + 1) u g delta reason now])
             (history_seq st + 1)
             (cooldowns st).
Proof.
  unfold update_karma. by destruct (upsert_karma (karma st) u g delta now).
Qed.

Lemma update_karma_snd st u g delta reason now :
  (update_karma st u g delta reason now).2
  = UpdateResult (kd_karma (get_karma st u g) + delta)
                 (calculate_level (kd_karma (get_karma st u g) + delta)).
Proof.
  unfold update_karma.
  pose proof (upsert_returning (karma st) u g delta now) as Hret.
  destruct (upsert_karma (karma st) u g delta now) as [rows k]; simpl in *.
  subst k. unfold bumped, get_karma.
  destruct (select_karma (karma st) u g); simpl; [done|].
  by rewrite Z.add_0_l.
Qed.

Lemma get_karma_update_same st u g delta reason now :
  get_karma (update_karma st u g delta reason now).1 u g
  = KarmaData (kd_karma (get_karma st u g) + delta) (Some now).
Proof.
  rewrite update_karma_fst. unfold get_karma at 1; simpl.
  rewrite upsert_select_same; simpl. unfold bumped, get_karma.
  destruct (select_karma (karma st) u g); simpl; [done|].
  by rewrite Z.add_0_l.
Qed.

Lemma get_karma_update_other st u g delta reason now u' g' :
  (u', g') ≠ (u, g) →
  get_karma (update_karma st u g delta reason now).1 u' g'
  = get_karma st u' g'.
Proof.
  intros Hne. rewrite update_karma_fst. unfold get_karma; simpl.
  by rewrite upsert_select_other.
Qed.

Lemma update_karma_cooldowns st u g delta reason now :
  cooldowns (update_karma st u g delta reason now).1 = cooldowns st.
Proof. by rewrite update_karma_fst. Qed.

Lemma call_is_spec u g c :
  call_is u g c = true ↔ dc_user_id c = u ∧ dc_guild_id c = g.
Proof.
  unfold call_is. rewrite andb_true_iff, !bool_decide_eq_true. tauto.
Qed.

Lemma get_karma_apply_call st u g c :
  kd_karma (get_karma (apply_call st c) u g)
  = kd_karma (get_karma st u g)
    + (if call_is u g c then dc_delta c else 0).
Proof.
  unfold apply_call. destruct (call_is u g c) eqn:Hc.
  - apply call_is_spec in Hc as [Hu Hg]. subst u g.
    by rewrite get_karma_update_same.
  - rewrite get_karma_update_other; [lia|].
    intros [= Hu Hg]. apply not_true_iff_false in Hc. apply Hc.
    by apply call_is_spec.
Qed.

Lemma get_karma_apply_calls st u g calls :
  kd_karma (get_karma (apply_calls st calls) u g)
  = kd_karma (get_karma st u g) + deltas_for u g calls.
Proof.
  revert st. induction calls as [|c calls IH]; intros st; simpl.
  - lia.
  - unfold apply_calls in *; simpl. rewrite IH, get_karma_apply_call. lia.
Qed.

(** C1: after any sequence of [update_karma] calls on a ledger that holds
    no record for (user, guild), interleaved at will with calls for other
    pairs, the points stored for the pair are the sum of the deltas
    applied to it; the first call for the pair creates the record at its
    delta. *)
Theorem update_karma_sums_deltas st u g calls :
  select_karma (karma st) u g = None →
  kd_karma (get_karma (apply_calls st calls) u g) = deltas_for u g calls
  ∧ ∀ delta reason now,
      select_karma (karma (update_karma st u g delta reason now).1) u g
      = Some (KarmaRow u g delta (Some now))
      ∧ new_karma (update_karma st u g delta reason now).2 = delta.
Proof.
  intros Habsent. split.
  - rewrite get_karma_apply_calls. unfold get_karma. rewrite Habsent. simpl. lia.
  - intros delta reason now. split.
    + rewrite update_karma_fst; simpl. rewrite upsert_select_same.
      unfold bumped. by rewrite Habsent.
    + rewrite update_karma_snd; simpl. unfold get_karma.
      rewrite Habsent. simpl. lia.
Qed.
End ledger.

(** ** Levels *)

Section levels.
Implicit Types (p : Z) (st : bot_state).

Lemma calculate_level_eq p : calculate_level p = Z.min (p / 50) 4.
Proof. reflexivity. Qed.

Lemma floor_div_50 p : 50 * (p / 50) <= p < 50 * (p / 50) + 50.
Proof.
  pose proof (Z.div_mod p 50 ltac:(lia)).
  pose proof (Z.mod_pos_bound p 50 ltac:(lia)). lia.
Qed.

Lemma calculate_level_mono p q :
  p <= q → calculate_level p <= calculate_level q.
Proof.
  intros Hpq. rewrite !calculate_level_eq.
  apply Z.min_le_compat_r. by apply Z.div_le_mono.
Qed.

Lemma calculate_level_saturates p : 200 <= p → calculate_level p = 4.
Proof.
  intros Hp. rewrite calculate_level_eq.
  pose proof (floor_div_50 p). lia.
Qed.

Lemma calculate_level_interval p :
  p mod 50 = 0 → calculate_level (p + Config.LEVEL_INTERVAL - 1) = calculate_level p.
Proof.
  intros Hp. rewrite !calculate_level_eq. unfold Config.LEVEL_INTERVAL.
  f_equal.
  pose proof (Z.div_mod p 50 ltac:(lia)).
  pose proof (floor_div_50 (p + 50 - 1)). lia.
Qed.

(** C2, as the code has it: for every integer total [calculate_level]
    is min(floor(points / 50), 4) and never exceeds 4; for every total
    that is not negative the level lies in [0, 4]; a total of 0 has
    level 0. *)
Theorem calculate_level_spec p :
  calculate_level p
    = Z.min (p / Config.LEVEL_INTERVAL) (Z.of_nat (length KarmaEmojis.LEVELS) - 1)
  ∧ Z.of_nat (length KarmaEmojis.LEVELS) = 5
  ∧ calculate_level p <= 4
  ∧ (0 <= p → 0 <= calculate_level p <= 4)
  ∧ calculate_level 0 = 0.
Proof.
  repeat split; try done.
  - rewrite calculate_level_eq. lia.
  - rewrite calculate_level_eq. pose proof (floor_div_50 p). lia.
  - rewrite calculate_level_eq. lia.
Qed.

Lemma calculate_level_spec_witness :
  0 <= 120 ∧ 0 <= calculate_level 120 <= 4.
Proof.
  split; [lia|].
  apply (proj1 (proj2 (proj2 (proj2 (calculate_level_spec 120))))). lia.
Defined.

(** C2 as stated fails below zero: the floor division is not clamped, so
    a total of -1 has level -1, outside [0, 4] and different from 0. *)
Lemma calculate_level_negative_total :
  calculate_level (-1) = -1
  ∧ ¬ (0 <= calculate_level (-1) <= 4)
  ∧ ¬ (∀ p, p <= 0 → calculate_level p = 0).
Proof.
  split; [done|]. split.
  - vm_compute. intros [H _]. by apply H.
  - intros H. specialize (H (-1) ltac:(lia)). discriminate H.
Qed.

Lemma level_of_floor p q :
  50 * q <= p < 50 * q + 50 → q <= 4 → calculate_level p = q.
Proof.
  intros Hq Hle. rewrite calculate_level_eq.
  pose proof (floor_div_50 p). lia.
Qed.

Lemma karma_check_emoji_eq st invoker user g :
  karma_check_emoji st invoker user g
  = py_index KarmaEmojis.LEVELS
      (calculate_level (kd_karma (get_karma st (default invoker user) g))).
Proof. reflexivity. Qed.

Lemma py_index_below {A} (l : list A) i :
  i < - Z.of_nat (length l) → py_index l i = None.
Proof.
  intros Hi. unfold py_index.
  destruct (Z.leb_spec 0 i); [lia|].
  destruct (Z.leb_spec (- Z.of_nat (length l)) i); [lia|done].
Qed.

(** C10, as the code has it: the emoji lookup of /karma check is partial
    on negative totals.  At -251 and below the level is at most -6 and
    the lookup raises IndexError; from -250 to -201 the level is -5 and
    the negative index selects the first entry, which is the emoji of
    level 0; from -200 to -1 the level is between -4 and -1 and the
    lookup silently selects entry 5 + level, an emoji other than that of
    level 0. *)
Theorem karma_check_emoji_negative st invoker user g :
  let p := kd_karma (get_karma st (default invoker user) g) in
  (p <= -251 →
     calculate_level p <= -6 ∧ karma_check_emoji st invoker user g = None)
  ∧ (-250 <= p <= -201 →
     calculate_level p = -5
     ∧ karma_check_emoji st invoker user g = KarmaEmojis.LEVELS !! 0%nat)
  ∧ (-200 <= p <= -1 →
     -4 <= calculate_level p <= -1
     ∧ karma_check_emoji st invoker user g
       = KarmaEmojis.LEVELS !! Z.to_nat (5 + calculate_level p)
     ∧ is_Some (karma_check_emoji st invoker user g)
     ∧ karma_check_emoji st invoker user g ≠ KarmaEmojis.LEVELS !! 0%nat).
Proof.
  intros p. rewrite karma_check_emoji_eq. fold p. clearbody p.
  split; [|split].
  - intros Hp.
    assert (calculate_level p <= -6) as Hl.
    { rewrite calculate_level_eq. pose proof (floor_div_50 p). lia. }
    split; [done|]. apply py_index_below. simpl. lia.
  - intros Hp. rewrite (level_of_floor p (-5)) by lia. done.
  - intros Hp.
    assert (calculate_level p = -4 ∨ calculate_level p = -3
            ∨ calculate_level p = -2 ∨ calculate_level p = -1) as Hl.
    { rewrite calculate_level_eq. pose proof (floor_div_50 p). lia. }
    destruct Hl as [-> | [-> | [-> | ->]]];
      (split; [lia|]); vm_compute; (split; [done|]); (split; [eauto|done]).
Qed.
End levels.


(** ** /karma give and /karma remove *)

Section commands.
Implicit Types (st : bot_state) (reason : option string).

(** C6: a give or a remove aimed at its own invoker is refused with
    SelfTargetError, whatever the amount, and returns the state it was
    given: points, event log and cooldown entries are as before. *)
Theorem self_target_refused st actor g amount reason now_gate now_db now_rec :
  karma_give st actor actor g amount reason now_gate now_db now_rec
  = (st, SelfTargetError)
  ∧ karma_remove st actor actor g amount reason now_gate now_db now_rec
    = (st, SelfTargetError).
Proof.
  unfold karma_give, karma_remove.
  rewrite (bool_decide_eq_true_2 (actor = actor)); done.
Qed.




Lemma td_truthy_None r : r = None → td_truthy r = None.
Proof. by intros ->. Qed.

(** A give that is neither self-aimed nor held back by the gate applies the
    amount and records the invoker's cooldown, whether or not the emoji
    lookup that follows succeeds. *)
Lemma karma_give_passes st actor user g amount reason now_gate now_db now_rec :
  user ≠ actor →
  check_cooldown st actor now_gate = None →
  (karma_give st actor user g amount reason now_gate now_db now_rec).1
  = set_cooldown (update_karma st user g amount reason now_db).1 actor now_rec.
Proof.
  intros Hne Hgate. unfold karma_give.
  rewrite bool_decide_eq_false_2 by done.
  rewrite Hgate. simpl.
  destruct (update_karma st user g amount reason now_db) as [st1 result]. simpl.
  by destruct (py_index KarmaEmojis.LEVELS (level result)).
Qed.

Lemma karma_give_reply st actor user g amount reason now_gate now_db now_rec :
  user ≠ actor →
  check_cooldown st actor now_gate = None →
  (karma_give st actor user g amount reason now_gate now_db now_rec).2
  = match py_index KarmaEmojis.LEVELS
            (calculate_level (kd_karma (get_karma st user g) + amount)) with
    | Some level_emoji =>
        KarmaGiven amount user (kd_karma (get_karma st user g) + amount)
                   level_emoji (reason_field reason)
    | None => RaisedIndexError
    end.
Proof.
  intros Hne Hgate. unfold karma_give.
  rewrite bool_decide_eq_false_2 by done.
  rewrite Hgate. simpl.
  pose proof (update_karma_snd st user g amount reason now_db) as Hres.
  destruct (update_karma st user g amount reason now_db) as [st1 result].
  simpl in Hres. subst result. simpl.
  by destruct (py_index KarmaEmojis.LEVELS _).
Qed.

Lemma py_index_levels_in_range l :
  -5 <= l <= 4 → is_Some (py_index KarmaEmojis.LEVELS l).
Proof.
  intros Hl.
  assert (l = -5 ∨ l = -4 ∨ l = -3 ∨ l = -2 ∨ l = -1
          ∨ l = 0 ∨ l = 1 ∨ l = 2 ∨ l = 3 ∨ l = 4) as Hcases by lia.
  repeat (destruct Hcases as [-> | Hcases]; [vm_compute; eauto|]).
  subst l. vm_compute. eauto.
Qed.

Lemma set_cooldown_get_karma st actor now u g :
  get_karma (set_cooldown st actor now) u g = get_karma st u g.
Proof. reflexivity. Qed.


End commands.

(** ** /karmaadmin set *)

Section admin.
Implicit Types (st : bot_state) (reason : option string).

Lemma admin_set_fst st user g amount reason now :
  (admin_set st user g amount reason now).1
  = (update_karma st user g (amount - kd_karma (get_karma st user g))
                  (Some (str_or reason "Admin adjustment")) now).1.
Proof.
  unfold admin_set.
  by destruct (update_karma st user g _ _ now).
Qed.

Lemma admin_set_snd st user g amount reason now :
  (admin_set st user g amount reason now).2
  = AdminEmbed user amount (amount - kd_karma (get_karma st user g))
               (reason_field reason).
Proof.
  unfold admin_set.
  by destruct (update_karma st user g _ _ now).
Qed.

(** C8: /karmaadmin set applies delta = V - current points, with no
    condition on who the target is and without reading or writing the
    cooldown map, logs that delta, and a get_karma right after it reads V. *)
Theorem admin_set_then_get st user g V reason now :
  let current := kd_karma (get_karma st user g) in
  let out := admin_set st user g V reason now in
  kd_karma (get_karma out.1 user g) = V
  ∧ ae_change out.2 = V - current
  ∧ out.1 = (update_karma st user g (V - current)
                          (Some (str_or reason "Admin adjustment")) now).1
  ∧ cooldowns out.1 = cooldowns st.
Proof.
  intros current out. subst out.
  rewrite admin_set_fst, admin_set_snd. fold current.
  repeat split.
  - rewrite get_karma_update_same. simpl. fold current. lia.
  - apply update_karma_cooldowns.
Qed.
End admin.

(** ** The daily cleanup *)

Section cleanup.
Implicit Types (st : bot_state) (e : history_row).

(** C9: the cleanup deletes from the event log exactly the rows stamped
    before now - 30 days, keeps the others in their order, and leaves the
    [karma] table (every total and every last_updated stamp) as it was. *)
Theorem cleanup_task_purges_old_events st now :
  let st' := cleanup_task st now in
  karma st' = karma st
  ∧ (∀ u g, get_karma st' u g = get_karma st u g)
  ∧ retention = 30 * 24 * 3600
  ∧ (∀ e, e ∈ karma_history st'
          ↔ e ∈ karma_history st ∧ now - retention <= h_timestamp e)
  ∧ (∀ e, e ∈ karma_history st ∧ e ∉ karma_history st'
          ↔ e ∈ karma_history st ∧ h_timestamp e < now - retention)
  ∧ sublist (karma_history st') (karma_history st).
Proof.
  intros st'. subst st'. unfold cleanup_task; simpl.
  assert (∀ e, e ∈ filter (λ e, ¬ expired now e) (karma_history st)
               ↔ e ∈ karma_history st ∧ now - retention <= h_timestamp e) as Hkept.
  { intros e. rewrite list_elem_of_filter. unfold expired. split.
    - intros [Hnew Hin]. split; [done|lia].
    - intros [Hin Hnew]. split; [lia|done]. }
  split; [done|]. split; [done|]. split; [done|]. split; [exact Hkept|]. split.
  - intros e. split.
    + intros [Hin Hgone]. split; [done|].
      destruct (decide (h_timestamp e < now - retention)) as [|Hnew]; [done|].
      exfalso. apply Hgone, Hkept. split; [done|lia].
    + intros [Hin Hold]. split; [done|]. intros [_ Hnew]%Hkept. lia.
  - apply sublist_filter.
Qed.
End cleanup.


(** ** Reactions *)

Section reactions.
Implicit Types (st : bot_state) (payload : reaction_payload).

Lemma reaction_by_other st payload now :
  p_emoji payload ∈ KarmaEmojis.REACTIONS →
  p_user_id payload ≠ p_author_id payload →
  (on_raw_reaction_add st payload now).1
  = (update_karma st (p_author_id payload) (p_guild_id payload) 1
                  (reaction_reason payload) now).1.
Proof.
  intros Hemoji Hother. unfold on_raw_reaction_add, reaction_reason.
  rewrite bool_decide_eq_true_2 by done.
  rewrite bool_decide_eq_false_2 by done.
  destruct (update_karma st _ _ 1 _ now) as [st1 result]. simpl.
  repeat case_match; done.
Qed.

(** C3, as the code has it: a reaction with a recognised emoji by anyone
    but the message's author adds 1 to the author's points, whatever the
    cooldown map holds and without touching it; a reaction by the author
    on their own message is dropped and changes nothing. *)
Theorem reaction_grant st payload now :
  p_emoji payload ∈ KarmaEmojis.REACTIONS →
  let author := p_author_id payload in
  let guild := p_guild_id payload in
  let out := on_raw_reaction_add st payload now in
  (p_user_id payload ≠ author →
     out.1 = (update_karma st author guild 1 (reaction_reason payload) now).1
     ∧ kd_karma (get_karma out.1 author guild)
       = kd_karma (get_karma st author guild) + 1
     ∧ cooldowns out.1 = cooldowns st
     ∧ ∀ cd,
         karma (on_raw_reaction_add
                  (BotState (karma st) (karma_history st) (history_seq st) cd)
                  payload now).1
         = karma out.1)
  ∧ (p_user_id payload = author → out = (st, NoMessage)).
Proof.
  intros Hemoji author guild out. split.
  - intros Hother. subst out. rewrite !reaction_by_other by done.
    split; [done|]. split; [|split].
    + by rewrite get_karma_update_same.
    + apply update_karma_cooldowns.
    + intros cd. rewrite reaction_by_other by done.
      by rewrite !update_karma_fst.
  - intros Hself. subst out. unfold on_raw_reaction_add.
    rewrite bool_decide_eq_true_2 by done.
    by rewrite bool_decide_eq_true_2 by done.
Qed.

(** C3 as stated fails on a self-reaction: member 1 reacting with a
    recognised emoji to a message of their own leaves the state as it was,
    so their points stay 0 instead of becoming 1. *)
Lemma self_reaction_grants_nothing :
  p_emoji reaction_to_self ∈ KarmaEmojis.REACTIONS
  ∧ p_user_id reaction_to_self = p_author_id reaction_to_self
  ∧ on_raw_reaction_add empty_state reaction_to_self 0 = (empty_state, NoMessage)
  ∧ kd_karma (get_karma (on_raw_reaction_add empty_state reaction_to_self 0).1 1 1)
    ≠ kd_karma (get_karma empty_state 1 1) + 1.
Proof.
  split; [apply (bool_decide_unpack _); by vm_compute|].
  split; [done|]. split; [by vm_compute|]. by vm_compute.
Qed.

(** The message rule of the handler: after a granted reaction the author is
    told of a level-up exactly when the new total exceeds 1, and the emoji
    lookup of the message never fails. *)
Lemma reaction_message_rule st payload now :
  p_emoji payload ∈ KarmaEmojis.REACTIONS →
  p_user_id payload ≠ p_author_id payload →
  let total :=
    kd_karma (get_karma st (p_author_id payload) (p_guild_id payload)) + 1 in
  (on_raw_reaction_add st payload now).2 ≠ ReactionIndexError
  ∧ ((on_raw_reaction_add st payload now).2 ≠ NoMessage ↔ 1 < total).
Proof.
  intros Hemoji Hother total. unfold on_raw_reaction_add.
  rewrite bool_decide_eq_true_2 by done.
  rewrite bool_decide_eq_false_2 by done.
  pose proof (update_karma_snd st (p_author_id payload) (p_guild_id payload) 1
                (Some ("Received " +:+ p_emoji payload +:+ " reaction")) now)
    as Hres.
  destruct (update_karma st _ _ 1 _ now) as [st1 result].
  simpl in Hres. subst result. simpl. fold total.
  destruct (Z.ltb_spec 1 total) as [Hbig|Hsmall].
  - assert ((calculate_level total - 1 <? calculate_level total) = true) as ->
      by (apply Z.ltb_lt; lia).
    destruct (py_index_levels_in_range (calculate_level total)) as [e He].
    { rewrite calculate_level_eq. pose proof (floor_div_50 total). lia. }
    rewrite He. simpl. split; [done|]. split; [done|]. done.
  - assert ((0 <? calculate_level total) = false) as ->.
    { apply Z.ltb_ge. rewrite calculate_level_eq.
      pose proof (floor_div_50 total). lia. }
    simpl. split; [done|]. split; [done|lia].
Qed.

(** C5 at the failing input: member 1 stands at 1 point and receives a
    reaction; the new total 2 is on the same level 0 as the total 1 before
    it, yet the handler sends the level-up message for level 0. *)
Theorem reaction_message_without_level_change :
  let out := on_raw_reaction_add (state_with_total 1) reaction_to_other 0 in
  kd_karma (get_karma (state_with_total 1) 1 1) = 1
  ∧ kd_karma (get_karma out.1 1 1) = 2
  ∧ calculate_level 2 = calculate_level (2 - 1)
  ∧ Some out.2 = (λ e, LevelUpMessage e 0) <$> KarmaEmojis.LEVELS !! 0%nat.
Proof. by vm_compute. Qed.
End reactions.


(** ** The leaderboard *)

Section leaderboard.
Implicit Types (st : bot_state) (rows : list karma_row) (r : karma_row).

Lemma insert_desc_perm r rows : insert_desc r rows ≡ₚ r :: rows.
Proof.
  induction rows as [|x rows IH]; simpl; [done|].
  destruct (kr_karma x <=? kr_karma r); [done|].
  rewrite IH. apply Permutation_swap.
Qed.

Lemma order_by_karma_desc_perm rows : order_by_karma_desc rows ≡ₚ rows.
Proof.
  induction rows as [|x rows IH]; simpl; [done|].
  by rewrite insert_desc_perm, IH.
Qed.

Lemma insert_desc_sorted r rows :
  StronglySorted karma_desc rows → StronglySorted karma_desc (insert_desc r rows).
Proof.
  induction 1 as [|x rows Hsorted IH Hx]; simpl.
  - repeat constructor.
  - destruct (Z.leb_spec (kr_karma x) (kr_karma r)) as [Hle|Hgt].
    + constructor; [by constructor|].
      constructor; [done|].
      eapply Forall_impl; [exact Hx|]. unfold karma_desc. intros y Hy. lia.
    + constructor; [done|].
      rewrite insert_desc_perm. constructor; [|done].
      unfold karma_desc. lia.
Qed.

Lemma order_by_karma_desc_sorted rows :
  StronglySorted karma_desc (order_by_karma_desc rows).
Proof.
  induction rows as [|x rows IH]; simpl; [constructor|].
  by apply insert_desc_sorted.
Qed.

Lemma order_by_karma_desc_ok rows :
  ordered_by_karma_desc rows (order_by_karma_desc rows).
Proof.
  split; [apply order_by_karma_desc_perm|apply order_by_karma_desc_sorted].
Qed.

Lemma StronglySorted_take {A} (R : relation A) (l : list A) n :
  StronglySorted R l → StronglySorted R (take n l).
Proof.
  intros Hl. revert n. induction Hl as [|x l Hl IH Hx]; intros [|n]; simpl;
    try constructor; [apply IH|by apply Forall_take].
Qed.

Lemma sql_limit_sorted {A} (R : relation A) (l : list A) n :
  StronglySorted R l → StronglySorted R (sql_limit n l).
Proof.
  intros Hl. unfold sql_limit. destruct (n <? 0); [done|].
  by apply StronglySorted_take.
Qed.

Lemma sql_limit_length {A} (l : list A) n :
  0 <= n → Z.of_nat (length (sql_limit n l)) = Z.min n (Z.of_nat (length l)).
Proof.
  intros Hn. unfold sql_limit.
  destruct (Z.ltb_spec n 0); [lia|]. rewrite length_take. lia.
Qed.

Lemma sql_limit_sublist {A} (l : list A) n : sublist (sql_limit n l) l.
Proof.
  unfold sql_limit. destruct (n <? 0); [done|]. apply sublist_take.
Qed.

Lemma get_leaderboard_answer st g limit :
  leaderboard_answer st g limit (get_leaderboard st g limit).
Proof.
  exists (order_by_karma_desc (filter (λ r, kr_guild_id r = g) (karma st))).
  split; [apply order_by_karma_desc_ok|done].
Qed.

(** C4, as the code has it: whatever order the database gives to rows of
    equal karma, the leaderboard is sorted by points in descending order
    (equal totals may follow each other in any order), it is made of
    records of the asked guild, and for a limit that is not negative it
    holds min(limit, number of the guild's records) entries, so never more
    than [limit]; the stable answer [get_leaderboard] is one of these. *)
Theorem leaderboard_sorted_and_limited st g limit records :
  leaderboard_answer st g limit records →
  StronglySorted points_desc records
  ∧ (∀ e, e ∈ records →
       ∃ r, r ∈ karma st ∧ kr_guild_id r = g ∧ e = to_entry r)
  ∧ (0 <= limit →
       Z.of_nat (length records)
       = Z.min limit
               (Z.of_nat (length (filter (λ r, kr_guild_id r = g) (karma st))))
       ∧ Z.of_nat (length records) <= limit)
  ∧ leaderboard_answer st g limit (get_leaderboard st g limit).
Proof.
  intros (answer & [Hperm Hsorted] & ->). split; [|split; [|split]].
  - eapply StronglySorted_fmap; [|apply sql_limit_sorted, Hsorted].
    intros x y Hxy. exact Hxy.
  - intros e (r & -> & Hr)%list_elem_of_fmap. exists r.
    assert (r ∈ filter (λ r, kr_guild_id r = g) (karma st)) as Hin.
    { rewrite <- Hperm. eapply elem_of_sublist; [done|apply sql_limit_sublist]. }
    apply list_elem_of_filter in Hin as [Hg Hin]. done.
  - intros Hlimit. rewrite length_fmap, sql_limit_length by done.
    rewrite (Permutation_length Hperm). lia.
  - apply get_leaderboard_answer.
Qed.

(** C4 as stated fails on ties: in [tied_state] members 2 and 1 both hold
    5 points, and the query answers with member 2 before member 1. *)
Lemma leaderboard_tie_not_by_user_id :
  get_leaderboard tied_state 1 10 = [BoardEntry 2 5; BoardEntry 1 5]
  ∧ leaderboard_answer tied_state 1 10 [BoardEntry 2 5; BoardEntry 1 5]
  ∧ ¬ StronglySorted points_then_user_id [BoardEntry 2 5; BoardEntry 1 5]
  ∧ ¬ (∀ st g limit records,
         leaderboard_answer st g limit records →
         StronglySorted points_then_user_id records).
Proof.
  assert (¬ StronglySorted points_then_user_id [BoardEntry 2 5; BoardEntry 1 5])
    as Hnot.
  { intros Hs. apply StronglySorted_cons in Hs as [Hhd _].
    apply Forall_cons in Hhd as [[Hlt | [_ Hlt]] _]; simpl in Hlt; lia. }
  assert (get_leaderboard tied_state 1 10 = [BoardEntry 2 5; BoardEntry 1 5])
    as Heq by (by vm_compute).
  split; [done|]. split; [|split; [done|]].
  - rewrite <- Heq. apply get_leaderboard_answer.
  - intros Hall. apply Hnot. rewrite <- Heq.
    apply (Hall tied_state 1 10), get_leaderboard_answer.
Qed.
End leaderboard.


(** ** Worked instances *)

Section instances.

(** Three calls for (user 1, guild 1) and two for other pairs, on a new
    database: the pair ends at 5 - 2 + 4. *)
Lemma update_karma_sums_deltas_witness :
  select_karma (karma empty_state) 1 1 = None
  ∧ kd_karma
      (get_karma
         (apply_calls empty_state
            [DeltaCall 1 1 5 None 0; DeltaCall 2 1 3 None 1;
             DeltaCall 1 1 (-2) (Some "spam"%string) 2; DeltaCall 1 2 7 None 3;
             DeltaCall 1 1 4 None 4])
         1 1)
    = 5 - 2 + 4.
Proof.
  split; [reflexivity|].
  apply (proj1 (update_karma_sums_deltas empty_state 1 1
                  [DeltaCall 1 1 5 None 0; DeltaCall 2 1 3 None 1;
                   DeltaCall 1 1 (-2) (Some "spam"%string) 2;
                   DeltaCall 1 2 7 None 3; DeltaCall 1 1 4 None 4]
                  eq_refl)).
Defined.

(** /karma check on totals -300, -250 and -100. *)
Lemma karma_check_emoji_negative_witness :
  karma_check_emoji (state_with_total (-300)) 1 None 1 = None
  ∧ karma_check_emoji (state_with_total (-250)) 1 None 1
    = KarmaEmojis.LEVELS !! 0%nat
  ∧ karma_check_emoji (state_with_total (-100)) 1 None 1
    ≠ KarmaEmojis.LEVELS !! 0%nat.
Proof.
  split; [|split].
  - apply (proj1 (karma_check_emoji_negative (state_with_total (-300)) 1 None 1)).
    apply Z.leb_le. reflexivity.
  - apply (proj1 (proj2 (karma_check_emoji_negative
                           (state_with_total (-250)) 1 None 1))).
    split; apply Z.leb_le; reflexivity.
  - apply (proj2 (proj2 (karma_check_emoji_negative
                           (state_with_total (-100)) 1 None 1))).
    split; apply Z.leb_le; reflexivity.
Defined.

(** C10 as stated fails between -250 and -201: at a total of -250 the
    level is -5, and index -5 of the five emojis is the first one, the
    emoji of level 0. *)
Lemma karma_check_emoji_at_minus_250 :
  -250 <= kd_karma (get_karma (state_with_total (-250)) 1 1) <= -1
  ∧ calculate_level (kd_karma (get_karma (state_with_total (-250)) 1 1)) = -5
  ∧ karma_check_emoji (state_with_total (-250)) 1 None 1
    = py_index KarmaEmojis.LEVELS (calculate_level 0).
Proof.
  split; [split; apply Z.leb_le; reflexivity|]. split; reflexivity.
Qed.



(** A reaction by member 2 on a message of member 1, and one by member 1
    on their own message. *)
Lemma reaction_grant_witness :
  kd_karma (get_karma (on_raw_reaction_add empty_state reaction_to_other 0).1 1 1)
  = kd_karma (get_karma empty_state 1 1) + 1
  ∧ on_raw_reaction_add empty_state reaction_to_self 0 = (empty_state, NoMessage).
Proof.
  split.
  - apply (proj1 (reaction_grant empty_state reaction_to_other 0
                    ltac:(apply (bool_decide_unpack _); vm_compute; exact I))).
    simpl. lia.
  - apply (proj2 (reaction_grant empty_state reaction_to_self 0
                    ltac:(apply (bool_decide_unpack _); vm_compute; exact I))).
    reflexivity.
Defined.

(** The leaderboard of guild 1 in [tied_state] with limit 10. *)
Lemma leaderboard_sorted_and_limited_witness :
  leaderboard_answer tied_state 1 10 (get_leaderboard tied_state 1 10)
  ∧ StronglySorted points_desc (get_leaderboard tied_state 1 10)
  ∧ Z.of_nat (length (get_leaderboard tied_state 1 10)) <= 10.
Proof.
  split; [apply get_leaderboard_answer|]. split.
  - apply (leaderboard_sorted_and_limited tied_state 1 10 _
             (get_leaderboard_answer tied_state 1 10)).
  - apply (leaderboard_sorted_and_limited tied_state 1 10 _
             (get_leaderboard_answer tied_state 1 10)).
    lia.
Defined.
End instances.


(** * Further properties of the handlers *)

(** ** What a handler does to the state *)

Section handler_states.
Implicit Types (st : bot_state) (reason : option string).

Lemma with_cooldowns_same st : with_cooldowns st (cooldowns st) = st.
Proof. by destruct st. Qed.

Lemma karma_give_state st actor user g amount reason now_gate now_db now_rec :
  (karma_give st actor user g amount reason now_gate now_db now_rec).1 = st
  ∨ (karma_give st actor user g amount reason now_gate now_db now_rec).1
    = set_cooldown (update_karma st user g amount reason now_db).1 actor now_rec.
Proof.
  unfold karma_give. case_bool_decide; [by left|].
  destruct (td_truthy _); [by left|]. right.
  destruct (update_karma st user g amount reason now_db) as [st1 result]. simpl.
  by destruct (py_index KarmaEmojis.LEVELS (level result)).
Qed.

Lemma karma_remove_state st actor user g amount reason now_gate now_db now_rec :
  (karma_remove st actor user g amount reason now_gate now_db now_rec).1 = st
  ∨ (karma_remove st actor user g amount reason now_gate now_db now_rec).1
    = set_cooldown (update_karma st user g (- amount) reason now_db).1
                   actor now_rec.
Proof.
  unfold karma_remove. case_bool_decide; [by left|].
  destruct (td_truthy _); [by left|]. right.
  destruct (update_karma st user g (- amount) reason now_db) as [st1 result].
  simpl. by destruct (py_index KarmaEmojis.LEVELS (level result)).
Qed.

Lemma karma_remove_passes st actor user g amount reason now_gate now_db now_rec :
  user ≠ actor →
  check_cooldown st actor now_gate = None →
  (karma_remove st actor user g amount reason now_gate now_db now_rec).1
  = set_cooldown (update_karma st user g (- amount) reason now_db).1
                 actor now_rec.
Proof.
  intros Hne Hgate. unfold karma_remove.
  rewrite bool_decide_eq_false_2 by done.
  rewrite Hgate. simpl.
  destruct (update_karma st user g (- amount) reason now_db) as [st1 result].
  simpl. by destruct (py_index KarmaEmojis.LEVELS (level result)).
Qed.

Lemma karma_remove_reply st actor user g amount reason now_gate now_db now_rec :
  user ≠ actor →
  check_cooldown st actor now_gate = None →
  (karma_remove st actor user g amount reason now_gate now_db now_rec).2
  = match py_index KarmaEmojis.LEVELS
            (calculate_level (kd_karma (get_karma st user g) + - amount)) with
    | Some level_emoji =>
        KarmaRemoved amount user (kd_karma (get_karma st user g) + - amount)
                     level_emoji (reason_field reason)
    | None => RaisedIndexError
    end.
Proof.
  intros Hne Hgate. unfold karma_remove.
  rewrite bool_decide_eq_false_2 by done.
  rewrite Hgate. simpl.
  pose proof (update_karma_snd st user g (- amount) reason now_db) as Hres.
  destruct (update_karma st user g (- amount) reason now_db) as [st1 result].
  simpl in Hres. subst result. simpl.
  by destruct (py_index KarmaEmojis.LEVELS _).
Qed.

Lemma reaction_state st payload now :
  (on_raw_reaction_add st payload now).1 = st
  ∨ (on_raw_reaction_add st payload now).1
    = (update_karma st (p_author_id payload) (p_guild_id payload) 1
                    (reaction_reason payload) now).1.
Proof.
  unfold on_raw_reaction_add, reaction_reason.
  case_bool_decide; [|by left]. case_bool_decide; [by left|]. right.
  destruct (update_karma st _ _ 1 _ now) as [st1 result]. simpl.
  repeat case_match; done.
Qed.

(** A handler leaves the state alone, purges the log, or makes one
    [update_karma] and possibly rewrites the cooldown map. *)
Lemma handle_cases st ev :
  handle st ev = st
  ∨ (∃ now, ev = Cleanup now ∧ handle st ev = cleanup_task st now)
  ∨ (¬ is_cleanup ev
     ∧ ∃ u g delta reason now cd,
         handle st ev
         = with_cooldowns (update_karma st u g delta reason now).1 cd).
Proof.
  destruct ev as [actor user g amount reason now_gate now_db now_rec
                 |actor user g amount reason now_gate now_db now_rec
                 |user g amount reason now_db|payload now_db|now_db]; simpl.
  - destruct (karma_give_state st actor user g amount reason
                now_gate now_db now_rec) as [->| ->]; [by left|].
    right; right. split; [tauto|]. by eexists _, _, _, _, _, _.
  - destruct (karma_remove_state st actor user g amount reason
                now_gate now_db now_rec) as [->| ->]; [by left|].
    right; right. split; [tauto|]. by eexists _, _, _, _, _, _.
  - right; right. split; [tauto|]. rewrite admin_set_fst.
    eexists _, _, _, _, _, _. symmetry. apply with_cooldowns_same.
  - destruct (reaction_state st payload now_db) as [->| ->]; [by left|].
    right; right. split; [tauto|].
    eexists _, _, _, _, _, _. symmetry. apply with_cooldowns_same.
  - right; left. by exists now_db.
Qed.
End handler_states.


(** ** Invariants of the tables *)

Section invariants.
Implicit Types (st : bot_state) (rows : list karma_row) (evs : list event).

Lemma select_karma_None rows u g :
  select_karma rows u g = None ↔ (u, g) ∉ row_key <$> rows.
Proof.
  induction rows as [|r rows IH]; csimpl.
  - split; [intros _; apply not_elem_of_nil|done].
  - rewrite not_elem_of_cons.
    destruct (row_is u g r) eqn:Hr.
    + apply row_is_spec in Hr as [Hu Hg]. split; [done|].
      intros [Hne _]. exfalso. apply Hne. unfold row_key. congruence.
    + rewrite IH. split; [|tauto]. intros Hnot. split; [|done].
      intros Hkey. apply not_true_iff_false in Hr. apply Hr, row_is_spec.
      unfold row_key in Hkey. by simplify_eq.
Qed.

Lemma upsert_keys rows u g delta now :
  row_key <$> (upsert_karma rows u g delta now).1
  = match select_karma rows u g with
    | Some _ => row_key <$> rows
    | None => (row_key <$> rows) ++ [(u, g)]
    end.
Proof.
  induction rows as [|r rows IH]; csimpl; [done|].
  destruct (row_is u g r) eqn:Hr; csimpl.
  - apply row_is_spec in Hr as [Hu Hg].
    unfold row_key at 1 3; simpl. by rewrite Hu, Hg.
  - destruct (upsert_karma rows u g delta now) as [rows' k]; csimpl in *.
    rewrite IH. by destruct (select_karma rows u g).
Qed.

Lemma upsert_pk_unique rows u g delta now :
  pk_unique rows → pk_unique (upsert_karma rows u g delta now).1.
Proof.
  unfold pk_unique. intros Hrows. rewrite upsert_keys.
  destruct (select_karma rows u g) eqn:Hsel; [done|].
  apply select_karma_None in Hsel.
  apply NoDup_app. split; [done|]. split; [|apply NoDup_singleton].
  intros k Hk ->%list_elem_of_singleton. done.
Qed.

Lemma handle_pk_unique st ev :
  pk_unique (karma st) → pk_unique (karma (handle st ev)).
Proof.
  intros Hst.
  destruct (handle_cases st ev)
    as [-> | [(now & _ & ->) | (_ & u & g & d & r & now & cd & ->)]];
    [done|done|].
  rewrite update_karma_fst. simpl. by apply upsert_pk_unique.
Qed.

(** X1: every handler keeps the primary key of [karma]: starting from a
    table with one row per (user, guild), any run of gives, removes, admin
    sets, reactions and cleanups ends in such a table. *)
Theorem run_keeps_pk_unique st evs :
  pk_unique (karma st) → pk_unique (karma (run st evs)).
Proof.
  revert st. induction evs as [|ev evs IH]; intros st Hst; [done|].
  apply IH. by apply handle_pk_unique.
Qed.






Lemma sum_snoc (l : list Z) (x : Z) :
  foldr Z.add 0 (l ++ [x]) = foldr Z.add 0 l + x.
Proof. induction l as [|y l IH]; simpl; lia. Qed.

Lemma log_sum_snoc u g (rows : list history_row) e :
  log_sum u g (rows ++ [e])
  = log_sum u g rows
    + (if decide (h_user_id e = u ∧ h_guild_id e = g) then h_change e else 0).
Proof.
  unfold log_sum, events_of. rewrite filter_app, fmap_app.
  destruct (decide (h_user_id e = u ∧ h_guild_id e = g)) as [He|He].
  - rewrite filter_cons_True by done. simpl. apply sum_snoc.
  - rewrite filter_cons_False by done. simpl. rewrite app_nil_r. lia.
Qed.

Lemma update_karma_ledger_matches_log st u g delta reason now :
  ledger_matches_log st →
  ledger_matches_log (update_karma st u g delta reason now).1.
Proof.
  intros Hst u' g'.
  assert (karma_history (update_karma st u g delta reason now).1
          = karma_history st
              ++ [HistoryRow (history_seq st + 1) u g delta reason now]) as ->
    by (by rewrite update_karma_fst).
  rewrite log_sum_snoc. simpl.
  destruct (decide (u = u' ∧ g = g')) as [[<- <-]|Hne].
  - rewrite get_karma_update_same. simpl. by rewrite Hst.
  - rewrite get_karma_update_other; [rewrite Hst; lia|].
    intros [= -> ->]. by apply Hne.
Qed.

(** X3: as long as no cleanup runs, the ledger and the log agree: if every
    pair's points equal the sum of the changes logged for it, they still do
    after any run of gives, removes, admin sets and reactions. *)
Theorem run_keeps_ledger_matches_log st evs :
  ledger_matches_log st →
  Forall (λ ev, ¬ is_cleanup ev) evs →
  ledger_matches_log (run st evs).
Proof.
  intros Hst Hevs. revert st Hst.
  induction Hevs as [|ev evs Hev Hevs IH]; intros st Hst; [done|].
  apply IH.
  destruct (handle_cases st ev)
    as [-> | [(now & -> & _) | (_ & u & g & d & r & now & cd & ->)]];
    [done|by destruct Hev|].
  intros u' g'.
  apply (update_karma_ledger_matches_log st u g d r now Hst u' g').
Qed.
End invariants.


(** ** Leaderboard entries *)

Section leaderboard_users.
Implicit Types (st : bot_state) (rows : list karma_row).

Lemma guild_users_NoDup rows g :
  pk_unique rows → NoDup (kr_user_id <$> filter (λ r, kr_guild_id r = g) rows).
Proof.
  unfold pk_unique. induction rows as [|r rows IH]; csimpl; [constructor|].
  intros [Hr Hrows]%NoDup_cons.
  destruct (decide (kr_guild_id r = g)) as [Hg|Hg].
  - rewrite filter_cons_True by done. csimpl.
    apply NoDup_cons. split; [|by apply IH].
    intros (r' & Hu & [Hg' Hin]%list_elem_of_filter)%list_elem_of_fmap.
    apply Hr. apply list_elem_of_fmap. exists r'. split; [|done].
    unfold row_key. congruence.
  - rewrite filter_cons_False by done. by apply IH.
Qed.

(** X4: when the [karma] table has one row per (user, guild), no member
    appears twice on a guild's leaderboard, whatever order the database
    gives to ties. *)
Theorem leaderboard_lists_users_once st g limit records :
  pk_unique (karma st) →
  leaderboard_answer st g limit records →
  NoDup (be_user_id <$> records).
Proof.
  intros Hpk (answer & [Hperm _] & ->).
  rewrite <- list_fmap_compose.
  eapply sublist_NoDup; [|apply fmap_sublist, sql_limit_sublist].
  rewrite Hperm. by apply guild_users_NoDup.
Qed.
End leaderboard_users.

(** ** Gives and removes *)

Section give_remove.
Implicit Types (st : bot_state) (reason : option string).

Lemma check_cooldown_no_entry st actor now :
  cooldowns st !! actor = None → check_cooldown st actor now = None.
Proof.
  intros Hnone. unfold check_cooldown. unfold datetime in *. by rewrite Hnone.
Qed.

Lemma check_cooldown_cooldowns st st' actor now :
  cooldowns st' !! actor = cooldowns st !! actor →
  check_cooldown st' actor now = check_cooldown st actor now.
Proof.
  intros Heq. unfold check_cooldown. unfold datetime in *. by rewrite Heq.
Qed.

(** X5: a give followed by a remove of the same amount on the same member,
    both let through by the gate, puts that member's points back where they
    were and leaves every other record of the ledger as it was. *)
Theorem give_then_remove_restores st giver remover user g amount
    reason1 reason2 now_gate1 now_db1 now_rec1 now_gate2 now_db2 now_rec2 :
  user ≠ giver →
  user ≠ remover →
  check_cooldown st giver now_gate1 = None →
  let st1 :=
    (karma_give st giver user g amount reason1 now_gate1 now_db1 now_rec1).1 in
  check_cooldown st1 remover now_gate2 = None →
  let st2 :=
    (karma_remove st1 remover user g amount reason2
                  now_gate2 now_db2 now_rec2).1 in
  kd_karma (get_karma st2 user g) = kd_karma (get_karma st user g)
  ∧ ∀ u' g', (u', g') ≠ (user, g) → get_karma st2 u' g' = get_karma st u' g'.
Proof.
  intros Hne1 Hne2 Hgate1 st1 Hgate2 st2. subst st2.
  rewrite karma_remove_passes by done. subst st1.
  rewrite karma_give_passes by done. split.
  - rewrite set_cooldown_get_karma, get_karma_update_same. simpl.
    rewrite set_cooldown_get_karma, get_karma_update_same. simpl. lia.
  - intros u' g' Hother.
    rewrite set_cooldown_get_karma, get_karma_update_other by done.
    by rewrite set_cooldown_get_karma, get_karma_update_other by done.
Qed.

(** X6: the cooldown belongs to the invoker alone: whatever a give or a
    remove by [actor] does, the gate answers every other member as
    before. *)
Theorem cooldown_is_per_actor st actor other user g amount reason
    now_gate now_db now_rec now :
  other ≠ actor →
  check_cooldown
    (karma_give st actor user g amount reason now_gate now_db now_rec).1 other now
  = check_cooldown st other now
  ∧ check_cooldown
      (karma_remove st actor user g amount reason now_gate now_db now_rec).1
      other now
    = check_cooldown st other now.
Proof.
  intros Hother. split.
  - destruct (karma_give_state st actor user g amount reason
                now_gate now_db now_rec) as [->| ->]; [done|].
    apply check_cooldown_cooldowns. simpl.
    rewrite lookup_insert_ne by done. by rewrite update_karma_cooldowns.
  - destruct (karma_remove_state st actor user g amount reason
                now_gate now_db now_rec) as [->| ->]; [done|].
    apply check_cooldown_cooldowns. simpl.
    rewrite lookup_insert_ne by done. by rewrite update_karma_cooldowns.
Qed.


(** X8: the update is committed before the level emoji is looked up: a
    remove (or a give) that the gate lets through and that leaves the member
    at -251 points or below ends in IndexError, and yet the points are
    changed, the event is logged and the invoker's cooldown is recorded. *)
Theorem update_survives_emoji_error st actor user g amount reason
    now_gate now_db now_rec :
  user ≠ actor →
  check_cooldown st actor now_gate = None →
  let total := kd_karma (get_karma st user g) in
  (total - amount <= -251 →
     let out := karma_remove st actor user g amount reason
                             now_gate now_db now_rec in
     out.2 = RaisedIndexError
     ∧ kd_karma (get_karma out.1 user g) = total - amount
     ∧ cooldowns out.1 !! actor = Some now_rec
     ∧ karma_history out.1
       = karma_history st
           ++ [HistoryRow (history_seq st + 1) user g (- amount) reason now_db])
  ∧ (total + amount <= -251 →
     let out := karma_give st actor user g amount reason
                           now_gate now_db now_rec in
     out.2 = RaisedIndexError
     ∧ kd_karma (get_karma out.1 user g) = total + amount
     ∧ cooldowns out.1 !! actor = Some now_rec
     ∧ karma_history out.1
       = karma_history st
           ++ [HistoryRow (history_seq st + 1) user g amount reason now_db]).
Proof.
  intros Hne Hgate total. split; intros Hlow out; subst out.
  - rewrite karma_remove_reply, karma_remove_passes by done. fold total.
    rewrite py_index_below.
    2:{ rewrite calculate_level_eq.
        pose proof (floor_div_50 (total + - amount)). simpl. lia. }
    split; [done|]. split; [|split].
    + rewrite set_cooldown_get_karma, get_karma_update_same. simpl.
      fold total. lia.
    + simpl. apply lookup_insert_eq.
    + simpl. by rewrite update_karma_fst.
  - rewrite karma_give_reply, karma_give_passes by done. fold total.
    rewrite py_index_below.
    2:{ rewrite calculate_level_eq.
        pose proof (floor_div_50 (total + amount)). simpl. lia. }
    split; [done|]. split; [|split].
    + rewrite set_cooldown_get_karma, get_karma_update_same. done.
    + simpl. apply lookup_insert_eq.
    + simpl. by rewrite update_karma_fst.
Qed.

Lemma py_index_levels_nonneg l :
  0 <= l <= 4 →
  ∃ e, KarmaEmojis.LEVELS !! Z.to_nat l = Some e
       ∧ py_index KarmaEmojis.LEVELS l = Some e.
Proof.
  intros Hl.
  assert (l = 0 ∨ l = 1 ∨ l = 2 ∨ l = 3 ∨ l = 4) as Hcases by lia.
  repeat (destruct Hcases as [-> | Hcases]; [vm_compute; eauto|]).
  subst l. vm_compute. eauto.
Qed.

(** X9: when the new total is not negative, the embed of a give or a remove
    that went through shows the new total with the emoji of its level,
    entry min(total // 50, 4) of LEVELS. *)
Theorem command_reply_shows_level st actor user g amount reason
    now_gate now_db now_rec :
  user ≠ actor →
  check_cooldown st actor now_gate = None →
  let total := kd_karma (get_karma st user g) in
  (0 <= total + amount →
     ∃ e, KarmaEmojis.LEVELS !! Z.to_nat (Z.min ((total + amount) / 50) 4) = Some e
          ∧ (karma_give st actor user g amount reason now_gate now_db now_rec).2
            = KarmaGiven amount user (total + amount) e (reason_field reason))
  ∧ (0 <= total - amount →
     ∃ e, KarmaEmojis.LEVELS !! Z.to_nat (Z.min ((total - amount) / 50) 4) = Some e
          ∧ (karma_remove st actor user g amount reason now_gate now_db now_rec).2
            = KarmaRemoved amount user (total - amount) e (reason_field reason)).
Proof.
  intros Hne Hgate total. split; intros Hpos.
  - rewrite karma_give_reply by done. fold total.
    destruct (py_index_levels_nonneg (calculate_level (total + amount)))
      as (e & He & Hidx).
    { rewrite calculate_level_eq.
      pose proof (floor_div_50 (total + amount)). lia. }
    exists e. rewrite Hidx. split; [|done].
    by rewrite <- calculate_level_eq.
  - rewrite karma_remove_reply by done. fold total.
    replace (total + - amount) with (total - amount) by lia.
    destruct (py_index_levels_nonneg (calculate_level (total - amount)))
      as (e & He & Hidx).
    { rewrite calculate_level_eq.
      pose proof (floor_div_50 (total - amount)). lia. }
    exists e. rewrite Hidx. split; [|done].
    by rewrite <- calculate_level_eq.
Qed.

(** X10: nothing caps what a member can receive: members that are not on
    cooldown and give one after the other, even at the same instant, each
    add their amount to the target's points. *)
Theorem gives_by_distinct_actors_add_up st actors user g amount reason
    now_gate now_db now_rec :
  NoDup actors →
  user ∉ actors →
  (∀ a, a ∈ actors → cooldowns st !! a = None) →
  kd_karma
    (get_karma
       (run st ((λ a, Give a user g amount reason now_gate now_db now_rec)
                  <$> actors))
       user g)
  = kd_karma (get_karma st user g) + amount * Z.of_nat (length actors).
Proof.
  intros Hnodup. revert st.
  induction Hnodup as [|a actors Ha Hnodup IH]; intros st Huser Hfree.
  - simpl. lia.
  - csimpl. unfold run in *. simpl.
    apply not_elem_of_cons in Huser as [Hne Huser].
    rewrite karma_give_passes.
    2: done.
    2:{ apply check_cooldown_no_entry, Hfree. left. }
    rewrite IH.
    + rewrite set_cooldown_get_karma, get_karma_update_same. simpl. lia.
    + done.
    + intros b Hb. simpl. rewrite lookup_insert_ne.
      * rewrite update_karma_cooldowns. apply Hfree. by right.
      * intros ->. done.
Qed.
End give_remove.


(** ** /karmaadmin set, again *)

Section admin_log.
Implicit Types (st : bot_state) (reason : option string).

Lemma str_or_reason_field reason default :
  str_or reason default
  = match reason_field reason with Some s => s | None => default end.
Proof.
  unfold str_or, reason_field. destruct reason as [s|]; [|done].
  by destruct (decide (s = ""%string)).
Qed.

(** X11: every /karmaadmin set appends exactly one row to the event log,
    with the applied change (also when that change is 0) and with the given
    reason when it is a non-empty text and "Admin adjustment" otherwise, so
    the logged reason is never empty; and the member has a record
    afterwards. *)
Theorem admin_set_always_logs st user g V reason now :
  let current := kd_karma (get_karma st user g) in
  let logged :=
    match reason_field reason with
    | Some s => s
    | None => "Admin adjustment"%string
    end in
  karma_history (admin_set st user g V reason now).1
  = karma_history st
      ++ [HistoryRow (history_seq st + 1) user g (V - current) (Some logged) now]
  ∧ logged ≠ ""%string
  ∧ select_karma (karma (admin_set st user g V reason now).1) user g
    = Some (KarmaRow user g V (Some now)).
Proof.
  intros current logged. rewrite admin_set_fst, update_karma_fst. simpl.
  fold current. rewrite str_or_reason_field. fold logged.
  split; [done|]. split.
  - subst logged. unfold reason_field. destruct reason as [s|]; [|done].
    by destruct (decide (s = ""%string)).
  - rewrite upsert_select_same. do 3 f_equal.
    unfold bumped, current, get_karma.
    destruct (select_karma (karma st) user g); simpl; lia.
Qed.

(** X12: setting a member to the value they already have changes no
    points: of two /karmaadmin set to the same value in a row, the second
    reports a change of 0 and leaves the total at that value, but it still
    adds a row to the log and renews the last_updated stamp. *)
Theorem admin_set_twice st user g V reason1 reason2 now1 now2 :
  let first := admin_set st user g V reason1 now1 in
  let second := admin_set first.1 user g V reason2 now2 in
  ae_change second.2 = 0
  ∧ get_karma second.1 user g = KarmaData V (Some now2)
  ∧ length (karma_history second.1) = S (S (length (karma_history st)))
  ∧ ∀ u' g', (u', g') ≠ (user, g) → get_karma second.1 u' g' = get_karma st u' g'.
Proof.
  intros first second. subst second first.
  rewrite admin_set_snd, !admin_set_fst. simpl.
  rewrite !get_karma_update_same. simpl.
  split; [lia|]. split; [f_equal; lia|]. split.
  - rewrite !update_karma_fst. simpl. rewrite !length_app. simpl. lia.
  - intros u' g' Hother. by rewrite !get_karma_update_other by done.
Qed.
End admin_log.

(** ** Reactions, again *)

Section reaction_runs.
Implicit Types (st : bot_state) (payload : reaction_payload).

(** X14: a reaction changes nobody's points but the message author's, in
    particular not those of the member who reacted, and never touches the
    cooldown map; with an emoji outside REACTIONS it changes nothing at
    all. *)
Theorem reaction_touches_only_author st payload now :
  let out := on_raw_reaction_add st payload now in
  cooldowns out.1 = cooldowns st
  ∧ (∀ u g, (u, g) ≠ (p_author_id payload, p_guild_id payload) →
            get_karma out.1 u g = get_karma st u g)
  ∧ (p_emoji payload ∉ KarmaEmojis.REACTIONS → out = (st, NoMessage)).
Proof.
  intros out. subst out. split; [|split].
  - destruct (reaction_state st payload now) as [->| ->]; [done|].
    apply update_karma_cooldowns.
  - intros u g Hother.
    destruct (reaction_state st payload now) as [->| ->]; [done|].
    by apply get_karma_update_other.
  - intros Hemoji. unfold on_raw_reaction_add.
    by rewrite bool_decide_eq_false_2 by done.
Qed.

(** X15: reactions are not rate limited: every recognised reaction that
    someone else puts on the author's messages adds one point, however many
    come in and whoever sends them, and the cooldown map stays as it is. *)
Theorem reactions_add_up st author g evs :
  Forall (reaction_for author g) evs →
  kd_karma (get_karma (run st evs) author g)
  = kd_karma (get_karma st author g) + Z.of_nat (length evs)
  ∧ cooldowns (run st evs) = cooldowns st.
Proof.
  intros Hevs. revert st.
  induction Hevs as [|ev evs Hev Hevs IH]; intros st.
  - simpl. split; [lia|done].
  - destruct ev as [| | |payload now|]; try done.
    destruct Hev as (Hemoji & Hother & <- & <-).
    unfold run in *. simpl.
    destruct (IH (on_raw_reaction_add st payload now).1) as [-> ->].
    rewrite reaction_by_other by done. split.
    + rewrite get_karma_update_same. simpl. lia.
    + apply update_karma_cooldowns.
Qed.
End reaction_runs.

(** ** The cleanup, again *)

Section cleanup_runs.
Implicit Types (st : bot_state).

(** X16: cleanups compose: a cleanup at [now1] followed by one at a later
    [now2] leaves the state that a single cleanup at [now2] leaves, and a
    cleanup at an earlier or equal time after that removes nothing more. *)
Theorem cleanup_task_composes st now1 now2 :
  now1 <= now2 →
  cleanup_task (cleanup_task st now1) now2 = cleanup_task st now2
  ∧ cleanup_task (cleanup_task st now2) now1 = cleanup_task st now2.
Proof.
  intros Hle. unfold cleanup_task; simpl. split; f_equal.
  - rewrite list_filter_filter. apply list_filter_iff.
    intros e. unfold expired. lia.
  - rewrite list_filter_filter. apply list_filter_iff.
    intros e. unfold expired. lia.
Qed.
End cleanup_runs.


(** ** /karma check and the history query *)

Section check.
Implicit Types (st : bot_state) (rows : list history_row).

Lemma insert_recent_not_nil e rows : insert_recent e rows ≠ [].
Proof. destruct rows as [|x rows]; simpl; [done|]. by case_match. Qed.

Lemma order_by_timestamp_desc_nil rows :
  order_by_timestamp_desc rows = [] ↔ rows = [].
Proof.
  destruct rows as [|e rows]; simpl; [done|].
  split; [|done]. intros Hnil. by apply insert_recent_not_nil in Hnil.
Qed.

Lemma sql_limit_nil {A} (l : list A) n :
  sql_limit n l = [] ↔ l = [] ∨ n = 0.
Proof.
  unfold sql_limit. destruct (Z.ltb_spec n 0) as [Hneg|Hpos].
  - split; [by left|]. intros [->|]; [done|lia].
  - destruct l as [|x l]; [rewrite take_nil; split; [by left|done]|].
    destruct (Z.to_nat n) as [|k] eqn:Hk; simpl.
    + split; [right; lia|done].
    + split; [done|]. intros [|]; [done|lia].
Qed.

Lemma dict_rows_outcome rows :
  dict_rows rows = match rows with [] => inr [] | _ => inl TypeError end.
Proof. by destruct rows. Qed.

(** X17: the history query only succeeds when it has nothing to return:
    with no logged event for the pair (or a limit of 0) [get_history] yields
    the empty list, and as soon as one event is selected the conversion of
    the first row raises TypeError. *)
Theorem get_history_outcome st u g limit :
  get_history st u g limit
  = if decide (events_of u g (karma_history st) = [] ∨ limit = 0)
    then inr [] else inl TypeError.
Proof.
  unfold get_history. rewrite dict_rows_outcome.
  pose proof (sql_limit_nil
                (order_by_timestamp_desc (events_of u g (karma_history st)))
                limit) as Hnil.
  rewrite order_by_timestamp_desc_nil in Hnil.
  destruct (sql_limit limit _) as [|row rows].
  - rewrite decide_True; [done|]. by apply Hnil.
  - rewrite decide_False; [done|]. intros Hempty. by apply Hnil in Hempty.
Qed.

Lemma get_history_five st u g :
  get_history st u g 5
  = match events_of u g (karma_history st) with
    | [] => inr []
    | _ => inl TypeError
    end.
Proof.
  unfold get_history. rewrite dict_rows_outcome.
  pose proof (sql_limit_nil
                (order_by_timestamp_desc (events_of u g (karma_history st)))
                5) as Hnil.
  rewrite order_by_timestamp_desc_nil in Hnil.
  destruct (sql_limit 5 _) as [|row rows].
  - destruct Hnil as [[->|Hfive] _]; [done|done|lia].
  - destruct (events_of u g (karma_history st)); [|done].
    destruct Hnil as [_ Hnil]. by specialize (Hnil (or_introl eq_refl)).
Qed.

(** X18: what /karma check answers.  At -251 points and below it ends in
    IndexError; from -250 up it ends in TypeError as soon as the log holds
    an event of the member in that guild; otherwise it shows the total, the
    level and the level's emoji, without a "Recent Changes" field. *)
Theorem karma_check_outcome st invoker user g :
  let target := default invoker user in
  let total := kd_karma (get_karma st target g) in
  let events := events_of target g (karma_history st) in
  (total <= -251 → karma_check st invoker user g = CheckRaised IndexError)
  ∧ (-250 <= total → events ≠ [] →
       karma_check st invoker user g = CheckRaised TypeError)
  ∧ (-250 <= total → events = [] →
       ∃ e, py_index KarmaEmojis.LEVELS (calculate_level total) = Some e
            ∧ karma_check st invoker user g
              = CheckEmbed e target total (calculate_level total) None).
Proof.
  intros target total events. unfold karma_check. fold target total.
  rewrite get_history_five. fold events. split; [|split].
  - intros Hlow. rewrite py_index_below; [done|].
    rewrite calculate_level_eq. pose proof (floor_div_50 total). simpl. lia.
  - intros Hok Hevents.
    destruct (py_index_levels_in_range (calculate_level total)) as [e ->].
    { rewrite calculate_level_eq. pose proof (floor_div_50 total). lia. }
    by destruct events.
  - intros Hok ->.
    destruct (py_index_levels_in_range (calculate_level total)) as [e ->].
    { rewrite calculate_level_eq. pose proof (floor_div_50 total). lia. }
    by exists e.
Qed.

(** X19: once a member's points have been changed, /karma check on that
    member can no longer answer: right after any [update_karma] for the
    member it ends in an exception, whoever asks. *)
Theorem karma_check_fails_after_update st u g delta reason now invoker :
  ∃ err,
    karma_check (update_karma st u g delta reason now).1 invoker (Some u) g
    = CheckRaised err.
Proof.
  unfold karma_check. simpl. rewrite get_history_five.
  destruct (py_index KarmaEmojis.LEVELS _) as [e|]; [|by eexists].
  assert (events_of u g (karma_history (update_karma st u g delta reason now).1)
          ≠ []) as Hevents.
  { rewrite update_karma_fst. simpl. unfold events_of.
    rewrite filter_app, filter_cons_True by done.
    intros [_ Hnil]%app_eq_nil. done. }
  destruct (events_of u g _); [done|]. by eexists.
Qed.
End check.


(** ** /karma leaderboard *)

Section leaderboard_command.
Implicit Types (st : bot_state) (records : list board_entry).

Lemma leaderboard_lines_ok idx records :
  Forall (λ r, -250 <= be_karma r) records →
  ∃ lines,
    leaderboard_lines idx records = inr lines
    ∧ bl_idx <$> lines = seqZ idx (Z.of_nat (length records))
    ∧ (λ l, BoardEntry (bl_user_id l) (bl_karma l)) <$> lines = records
    ∧ Forall (λ l, py_index KarmaEmojis.LEVELS (calculate_level (bl_karma l))
                   = Some (bl_level_emoji l)) lines.
Proof.
  intros Hall. revert idx.
  induction Hall as [|r records Hr Hall IH]; intros idx.
  - exists []. by rewrite seqZ_nil.
  - destruct (py_index_levels_in_range (calculate_level (be_karma r)))
      as [e He].
    { rewrite calculate_level_eq. pose proof (floor_div_50 (be_karma r)). lia. }
    destruct (IH (idx + 1)) as (lines & Hlines & Hidx & Hrecords & Hemoji).
    exists (BoardLine idx (be_user_id r) (be_karma r) e :: lines).
    split; [simpl; by rewrite He, Hlines|]. split; [|split].
    + rewrite fmap_cons, Hidx. cbn [length bl_idx].
      rewrite (seqZ_cons idx) by lia. do 2 f_equal; lia.
    + rewrite fmap_cons, Hrecords. by destruct r.
    + by constructor.
Qed.

Lemma leaderboard_lines_raises idx records :
  Exists (λ r, be_karma r <= -251) records →
  leaderboard_lines idx records = inl IndexError.
Proof.
  intros Hex. revert idx.
  induction Hex as [r records Hr|r records Hex IH]; intros idx; simpl.
  - rewrite py_index_below; [done|].
    rewrite calculate_level_eq. pose proof (floor_div_50 (be_karma r)).
    simpl. lia.
  - destruct (py_index KarmaEmojis.LEVELS _); [|done]. by rewrite IH.
Qed.

Lemma order_by_karma_desc_nil (rows : list karma_row) :
  order_by_karma_desc rows = [] ↔ rows = [].
Proof.
  split; [|by intros ->].
  intros Hnil. apply Permutation_nil. rewrite <- Hnil.
  apply order_by_karma_desc_perm.
Qed.

(** X20: what /karma leaderboard answers.  For a limit of 1 or more it says
    that there are no records exactly when the guild has none; if one of
    the listed records stands at -251 points or below the whole command
    ends in IndexError; otherwise it lists the records of [get_leaderboard]
    in their order, numbered from 1, each with the emoji of its level. *)
Theorem karma_leaderboard_outcome st g limit :
  let records := get_leaderboard st g limit in
  (0 < limit →
     (karma_leaderboard st g limit = NoKarmaRecords
      ↔ filter (λ r, kr_guild_id r = g) (karma st) = []))
  ∧ (Exists (λ r, be_karma r <= -251) records →
       karma_leaderboard st g limit = LeaderboardRaised IndexError)
  ∧ (records ≠ [] → Forall (λ r, -250 <= be_karma r) records →
       ∃ lines,
         karma_leaderboard st g limit = LeaderboardEmbed lines limit
         ∧ bl_idx <$> lines = seqZ 1 (Z.of_nat (length records))
         ∧ (λ l, BoardEntry (bl_user_id l) (bl_karma l)) <$> lines = records
         ∧ Forall (λ l, py_index KarmaEmojis.LEVELS
                                 (calculate_level (bl_karma l))
                        = Some (bl_level_emoji l)) lines).
Proof.
  intros records. unfold karma_leaderboard. fold records. split; [|split].
  - intros Hlimit.
    assert (records = [] ↔ filter (λ r, kr_guild_id r = g) (karma st) = [])
      as <-.
    { subst records. unfold get_leaderboard. split.
      - intros Hnil%fmap_nil_inv.
        apply sql_limit_nil in Hnil as [Hnil|]; [|lia].
        by apply order_by_karma_desc_nil.
      - intros ->. simpl. unfold sql_limit.
        destruct (limit <? 0); [done|]. by rewrite take_nil. }
    destruct records as [|r records']; [done|].
    split; [|done]. by destruct (leaderboard_lines 1 (r :: records')).
  - intros Hex. rewrite (leaderboard_lines_raises 1 records Hex).
    destruct records; [by apply Exists_nil in Hex|done].
  - intros Hne Hall.
    destruct (leaderboard_lines_ok 1 records Hall)
      as (lines & -> & Hidx & Hrecords & Hemoji).
    exists lines. by destruct records.
Qed.
End leaderboard_command.

(** ** Kudo boards *)

Section boards.
Implicit Types (boards : gmap Z kudo_board) (msg : message).

Lemma prefix_spec (p s : string) :
  String.prefix p s = true ↔ ∃ rest, s = (p +:+ rest)%string.
Proof.
  revert s. induction p as [|a p IH]; intros s.
  - split; [intros _; by exists s|]. intros _. by destruct s.
  - destruct s as [|b s]; simpl.
    + split; [done|]. by intros [rest Hrest].
    + destruct (Ascii.ascii_dec a b) as [->|Hab].
      * rewrite IH. split; intros [rest Hrest]; exists rest.
        -- by rewrite Hrest.
        -- by injection Hrest.
      * split; [done|]. intros [rest Hrest]. injection Hrest. congruence.
Qed.

Lemma startswith_rep_spec (content : string) :
  startswith_any content rep_prefixes = true ↔ starts_with_rep content.
Proof.
  unfold startswith_any, starts_with_rep, rep_prefixes. simpl.
  rewrite !orb_true_iff, !prefix_spec. split.
  - intros [[rest ->]|[[rest ->]|[[rest ->]|?]]]; [| | |done].
    + eexists _, rest. split; [|done]. set_solver.
    + eexists _, rest. split; [|done]. set_solver.
    + eexists _, rest. split; [|done]. set_solver.
  - intros (p & rest & Hp & ->).
    apply elem_of_cons in Hp as [->|Hp]; [left; by exists rest|].
    apply elem_of_cons in Hp as [->|Hp]; [right; left; by exists rest|].
    apply list_elem_of_singleton in Hp as ->. right; right; left.
    by exists rest.
Qed.

(** X21: once a channel has been made a kudo board, with whatever guild
    and minimum karma, a message in it that is not from a bot stays if it
    starts with +rep, !rep or /rep and is deleted otherwise (the author
    being notified when their DMs are open), and in neither case reaches
    the command processor; messages of bots are ignored, and messages in
    other channels are treated as before. *)
Theorem kudo_board_policy boards channel g min_karma msg :
  let boards' := create_kudo_board boards channel g min_karma in
  (m_author_bot msg = true → on_message boards' msg = Ignored)
  ∧ (m_author_bot msg = false → m_channel_id msg = channel →
       (starts_with_rep (m_content msg) → on_message boards' msg = LeftOnBoard)
       ∧ (¬ starts_with_rep (m_content msg) →
            on_message boards' msg = Deleted (m_dm_open msg)))
  ∧ (m_channel_id msg ≠ channel → on_message boards' msg = on_message boards msg).
Proof.
  intros boards'. subst boards'. unfold on_message, create_kudo_board.
  split; [|split].
  - by intros ->.
  - intros -> ->. rewrite lookup_insert_eq. cbn -[startswith_any]. split.
    + intros Hrep%startswith_rep_spec. by rewrite Hrep.
    + intros Hrep.
      destruct (startswith_any (m_content msg) rep_prefixes) eqn:Hstarts;
        [|done].
      by apply startswith_rep_spec in Hstarts.
  - intros Hother. by rewrite lookup_insert_ne.
Qed.
End boards.


(** ** Worked instances, again *)

Section more_instances.

Lemma run_keeps_pk_unique_witness :
  pk_unique (karma empty_state) ∧ pk_unique (karma (run empty_state sample_run)).
Proof.
  split; [apply NoDup_nil_2|].
  apply (run_keeps_pk_unique empty_state sample_run). apply NoDup_nil_2.
Defined.


Lemma run_keeps_ledger_matches_log_witness :
  kd_karma (get_karma (run empty_state sample_changes) 1 1)
  = log_sum 1 1 (karma_history (run empty_state sample_changes)).
Proof.
  apply (run_keeps_ledger_matches_log empty_state sample_changes).
  - intros u g. reflexivity.
  - repeat (constructor; [simpl; tauto|]). constructor.
Defined.

Lemma leaderboard_lists_users_once_witness :
  pk_unique (karma tied_state)
  ∧ NoDup (be_user_id <$> get_leaderboard tied_state 1 10).
Proof.
  assert (pk_unique (karma tied_state)) as Hpk
    by (apply (bool_decide_unpack _); vm_compute; exact I).
  split; [exact Hpk|].
  apply (leaderboard_lists_users_once tied_state 1 10 _ Hpk
           (get_leaderboard_answer tied_state 1 10)).
Defined.

Lemma give_then_remove_restores_witness :
  kd_karma
    (get_karma
       (karma_remove (karma_give empty_state 1 3 1 5 None 0 0 0).1
                     2 3 1 5 None 0 1 0).1 3 1)
  = kd_karma (get_karma empty_state 3 1).
Proof.
  apply (give_then_remove_restores empty_state 1 2 3 1 5 None None 0 0 0 0 1 0
           ltac:(lia) ltac:(lia) eq_refl eq_refl).
Defined.

Lemma cooldown_is_per_actor_witness :
  check_cooldown (karma_give empty_state 1 3 1 5 None 0 0 0).1 2 100
  = check_cooldown empty_state 2 100.
Proof.
  apply (cooldown_is_per_actor empty_state 1 2 3 1 5 None 0 0 0 100 ltac:(lia)).
Defined.


Lemma update_survives_emoji_error_witness :
  (karma_remove (state_with_total (-250)) 2 1 1 1 None 0 5 0).2 = RaisedIndexError
  ∧ kd_karma
      (get_karma (karma_remove (state_with_total (-250)) 2 1 1 1 None 0 5 0).1 1 1)
    = -250 - 1.
Proof.
  pose proof (proj1 (update_survives_emoji_error (state_with_total (-250))
                       2 1 1 1 None 0 5 0 ltac:(lia) eq_refl)) as Hremove.
  cbv zeta in Hremove.
  destruct Hremove as (Hreply & Htotal & _); [apply Z.leb_le; reflexivity|].
  split; [exact Hreply|exact Htotal].
Defined.

Lemma command_reply_shows_level_witness :
  ∃ e, KarmaEmojis.LEVELS !! 0%nat = Some e
       ∧ (karma_give empty_state 1 2 1 5 None 0 0 0).2 = KarmaGiven 5 2 5 e None.
Proof.
  apply (proj1 (command_reply_shows_level empty_state 1 2 1 5 None 0 0 0
                  ltac:(lia) eq_refl)).
  simpl. lia.
Defined.

Lemma gives_by_distinct_actors_add_up_witness :
  kd_karma
    (get_karma
       (run empty_state ((λ a, Give a 1 1 10 None 0 0 0) <$> [2; 3; 4])) 1 1)
  = 0 + 10 * 3.
Proof.
  apply (gives_by_distinct_actors_add_up empty_state [2; 3; 4] 1 1 10 None 0 0 0).
  - apply (bool_decide_unpack _). vm_compute. exact I.
  - apply (bool_decide_unpack _). vm_compute. exact I.
  - intros a _. reflexivity.
Defined.

Lemma reaction_touches_only_author_witness :
  get_karma (on_raw_reaction_add empty_state reaction_to_other 0).1 2 1
  = get_karma empty_state 2 1.
Proof.
  apply (proj1 (proj2 (reaction_touches_only_author
                         empty_state reaction_to_other 0))).
  simpl. intros Heq. discriminate Heq.
Defined.

Lemma reactions_add_up_witness :
  kd_karma
    (get_karma
       (run empty_state
            [Reaction reaction_to_other 0; Reaction reaction_to_other 1]) 1 1)
  = 0 + 2.
Proof.
  apply (reactions_add_up empty_state 1 1
           [Reaction reaction_to_other 0; Reaction reaction_to_other 1]).
  repeat (constructor;
          [split; [apply (bool_decide_unpack _); vm_compute; exact I|];
           split; [simpl; lia|]; split; reflexivity|]).
  constructor.
Defined.

Lemma cleanup_task_composes_witness :
  cleanup_task (cleanup_task (run empty_state sample_changes) 2600000) 3000000
  = cleanup_task (run empty_state sample_changes) 3000000.
Proof.
  apply (cleanup_task_composes (run empty_state sample_changes) 2600000 3000000).
  lia.
Defined.

Lemma karma_check_outcome_witness :
  karma_check (state_with_total (-300)) 1 None 1 = CheckRaised IndexError
  ∧ karma_check (state_with_total 5) 2 (Some 1) 1 = CheckRaised TypeError
  ∧ ∃ e, karma_check empty_state 1 None 1 = CheckEmbed e 1 0 0 None.
Proof.
  split; [|split].
  - apply (proj1 (karma_check_outcome (state_with_total (-300)) 1 None 1)).
    apply Z.leb_le. reflexivity.
  - apply (proj1 (proj2 (karma_check_outcome (state_with_total 5) 2 (Some 1) 1))).
    + apply Z.leb_le. reflexivity.
    + intros Hnil. discriminate Hnil.
  - destruct (proj2 (proj2 (karma_check_outcome empty_state 1 None 1)))
      as (e & _ & Hreply).
    + apply Z.leb_le. reflexivity.
    + reflexivity.
    + exists e. exact Hreply.
Defined.

Lemma karma_leaderboard_outcome_witness :
  karma_leaderboard (state_with_total (-300)) 1 10 = LeaderboardRaised IndexError
  ∧ ∃ lines,
      karma_leaderboard tied_state 1 10 = LeaderboardEmbed lines 10
      ∧ bl_idx <$> lines = [1; 2].
Proof.
  split.
  - apply (proj1 (proj2 (karma_leaderboard_outcome (state_with_total (-300)) 1 10))).
    apply Exists_cons_hd. apply Z.leb_le. reflexivity.
  - destruct (proj2 (proj2 (karma_leaderboard_outcome tied_state 1 10)))
      as (lines & Hreply & Hidx & _).
    + intros Hnil. discriminate Hnil.
    + repeat (constructor; [apply Z.leb_le; reflexivity|]). constructor.
    + exists lines. split; [exact Hreply|exact Hidx].
Defined.

Lemma kudo_board_policy_witness :
  on_message (create_kudo_board ∅ 7 1 3) (Message false 7 "thanks +rep" true)
  = Deleted true
  ∧ on_message (create_kudo_board ∅ 7 1 3) (Message false 7 "+rep @ann" true)
    = LeftOnBoard.
Proof.
  split.
  - apply (proj1 (proj2 (kudo_board_policy ∅ 7 1 3
                           (Message false 7 "thanks +rep" true)))).
    + reflexivity.
    + reflexivity.
    + intros Hrep%startswith_rep_spec. discriminate Hrep.
  - apply (proj1 (proj2 (kudo_board_policy ∅ 7 1 3
                           (Message false 7 "+rep @ann" true)))).
    + reflexivity.
    + reflexivity.
    + apply startswith_rep_spec. reflexivity.
Defined.
End more_instances.


(** ** The level-up message, the upsert and the level steps *)

Section more_properties.
Implicit Types (st : bot_state) (payload : reaction_payload) (p q : Z).

(** X13: what a granted reaction tells the author: when the new total is
    above 1 the author gets the level-up message with the level of the new
    total and that level's emoji, whether or not the level changed; at a
    new total of 1 or less nothing is sent.  The emoji lookup of the
    message cannot fail. *)
Theorem reaction_message_content st payload now :
  p_emoji payload ∈ KarmaEmojis.REACTIONS →
  p_user_id payload ≠ p_author_id payload →
  let total :=
    kd_karma (get_karma st (p_author_id payload) (p_guild_id payload)) + 1 in
  (1 < total →
     ∃ e, KarmaEmojis.LEVELS !! Z.to_nat (calculate_level total) = Some e
          ∧ (on_raw_reaction_add st payload now).2
            = LevelUpMessage e (calculate_level total))
  ∧ (total <= 1 → (on_raw_reaction_add st payload now).2 = NoMessage).
Proof.
  intros Hemoji Hother total. unfold on_raw_reaction_add.
  rewrite bool_decide_eq_true_2 by done.
  rewrite bool_decide_eq_false_2 by done.
  pose proof (update_karma_snd st (p_author_id payload) (p_guild_id payload) 1
                (Some ("Received " +:+ p_emoji payload +:+ " reaction")) now)
    as Hres.
  destruct (update_karma st _ _ 1 _ now) as [st1 result].
  simpl in Hres. subst result. simpl. fold total. split.
  - intros Hbig.
    destruct (Z.ltb_spec 1 total) as [_|]; [|lia].
    assert ((calculate_level total - 1 <? calculate_level total) = true) as ->
      by (apply Z.ltb_lt; lia).
    destruct (py_index_levels_nonneg (calculate_level total))
      as (e & He & ->).
    { rewrite calculate_level_eq. pose proof (floor_div_50 total). lia. }
    by exists e.
  - intros Hsmall.
    destruct (Z.ltb_spec 1 total) as [|_]; [lia|].
    assert ((0 <? calculate_level total) = false) as ->; [|done].
    apply Z.ltb_ge. rewrite calculate_level_eq.
    pose proof (floor_div_50 total). lia.
Qed.

Lemma reaction_message_content_witness :
  ∃ e, (on_raw_reaction_add (state_with_total 1) reaction_to_other 0).2
       = LevelUpMessage e 0.
Proof.
  destruct (proj1 (reaction_message_content
                     (state_with_total 1) reaction_to_other 0
                     ltac:(apply (bool_decide_unpack _); vm_compute; exact I)
                     ltac:(simpl; lia)))
    as (e & _ & Hreply).
  - simpl. lia.
  - exists e. exact Hreply.
Defined.

(** X22: what one [update_karma] does: the value it returns is the total
    that [get_karma] reads back for the pair, the old total plus the delta,
    stamped with the time of the call; the level it returns is the level of
    that total; the log gains exactly one row with the delta and the reason;
    the cooldown map and every other pair's record stay as they were. *)
Theorem update_karma_effect st u g delta reason now :
  let out := update_karma st u g delta reason now in
  get_karma out.1 u g = KarmaData (new_karma out.2) (Some now)
  ∧ new_karma out.2 = kd_karma (get_karma st u g) + delta
  ∧ level out.2 = calculate_level (new_karma out.2)
  ∧ karma_history out.1
    = karma_history st ++ [HistoryRow (history_seq st + 1) u g delta reason now]
  ∧ cooldowns out.1 = cooldowns st
  ∧ ∀ u' g', (u', g') ≠ (u, g) → get_karma out.1 u' g' = get_karma st u' g'.
Proof.
  intros out. subst out.
  rewrite get_karma_update_same, update_karma_snd. simpl.
  repeat split.
  - by rewrite update_karma_fst.
  - apply update_karma_cooldowns.
  - intros u' g' Hother. by apply get_karma_update_other.
Qed.

(** X23: the shape of the level function over all integers: it never goes
    down when the points go up, it goes up by exactly one for every 50
    points added below 200, and it is 4 from 200 points on. *)
Theorem calculate_level_steps :
  (∀ p q, p <= q → calculate_level p <= calculate_level q)
  ∧ (∀ p, p < 200 → calculate_level (p + 50) = calculate_level p + 1)
  ∧ (∀ p, 200 <= p → calculate_level p = 4).
Proof.
  split; [|split].
  - intros p q Hpq. rewrite !calculate_level_eq.
    apply Z.min_le_compat_r. by apply Z.div_le_mono.
  - intros p Hp. rewrite !calculate_level_eq.
    pose proof (floor_div_50 p). pose proof (floor_div_50 (p + 50)). lia.
  - intros p Hp. rewrite calculate_level_eq.
    pose proof (floor_div_50 p). lia.
Qed.

Lemma calculate_level_steps_witness :
  calculate_level (-30) <= calculate_level 120
  ∧ calculate_level (120 + 50) = calculate_level 120 + 1
  ∧ calculate_level 1000 = 4.
Proof.
  destruct calculate_level_steps as (Hmono & Hstep & Htop).
  split; [apply Hmono; lia|]. split; [apply Hstep; lia|apply Htop; lia].
Defined.
End more_properties.
